(** * rasterstats.main.zonal_stats: a shallow embedding

    The per-feature overlay-and-reduce pipeline of [zonal_stats]
    (rasterstats/main.py).  Numbers of the raster and of the geometries are
    rationals [Q]: every statistic below is exact arithmetic on them.
    Python dicts are association lists kept in insertion order, numpy arrays
    are lists of rows, and exceptions are the [Err] case of a small error
    monad.  The global-extent array is an explicit store that is threaded
    through the loop, so that writes made through numpy views of it are seen
    by the features processed afterwards. *)

From Stdlib Require Import ZArith QArith Qround Qminmax Qabs Lqa Ascii String List Bool Lia.
From Stdlib Require Import Sorted Permutation.
Import ListNotations.
Open Scope string_scope.

(** ** Exceptions and the error monad *)

Inductive exn :=
| TypeError
| IndexError
| ValueError
| AssertionError
| RasterioError
| NameError
| UserError.

Inductive result (A : Type) :=
| Ok (a : A)
| Err (e : exn).
Arguments Ok {A} a.
Arguments Err {A} e.

Definition bind {A B} (m : result A) (f : A -> result B) : result B :=
  match m with
  | Ok a => f a
  | Err e => Err e
  end.

Notation "'let*' x ':=' m 'in' f" := (bind m (fun x => f))
  (at level 200, x name, m at level 100, f at level 200).

Fixpoint foldM {A B} (f : A -> B -> result A) (a : A) (l : list B)
  : result A :=
  match l with
  | [] => Ok a
  | x :: l' => let* a' := f a x in foldM f a' l'
  end.

Fixpoint mapM {A B} (f : A -> result B) (l : list A) : result (list B) :=
  match l with
  | [] => Ok []
  | x :: l' => let* y := f x in let* ys := mapM f l' in Ok (y :: ys)
  end.

(** ** Arrays, geotransforms and masked arrays *)

(** A 2-D numpy array, row-major. *)
Definition grid (A : Type) := list (list A).

(** A GDAL geotransform
    [(originX, pixelWidth, rowRotation, originY, colRotation, pixelHeight)],
    indexed as in the source ([rgt[0]] .. [rgt[5]]). *)
Record geotransform := mkGT {
  gt0 : Q; gt1 : Q; gt2 : Q; gt3 : Q; gt4 : Q; gt5 : Q
}.

(** [np.ma.MaskedArray]: data and mask (true = excluded). *)
Record masked_array := mkMasked {
  mdata : grid Q;
  mmask : grid bool
}.

(** Pixel offsets [(xoff, yoff, xsize, ysize)] as returned by
    [bbox_to_pixel_offsets]. *)
Record offsets := mkOffsets {
  off_x : Z; off_y : Z; off_xsize : Z; off_ysize : Z
}.

(** ** Python values and dicts *)

Inductive pyval :=
| PNone
| PInt (z : Z)
| PFloat (q : Q)
| PFloatSqrt (q : Q)   (* the float [sqrt q], as returned by [masked.std()] *)
| PStr (s : string)
| PMasked (m : masked_array)
| PMaskedView (ya yb xa xb : Z) (mask : grid bool)
    (* a masked array whose data is the view [global_src_array[ya:yb, xa:xb]]:
       it reads whatever the global array holds when it is read *)
| PGT (g : geotransform).

(** Keys of a result dict: the stat names are strings; in categorical mode
    the histogram keys are raster values. *)
Inductive key :=
| KStr (s : string)
| KNum (q : Q).

Definition key_eqb (k1 k2 : key) : bool :=
  match k1, k2 with
  | KStr a, KStr b => String.eqb a b
  | KNum a, KNum b => Qeq_bool a b
  | _, _ => false
  end.

Definition dict := list (key * pyval).

Fixpoint dict_get (d : dict) (k : key) : option pyval :=
  match d with
  | [] => None
  | (k', v) :: d' => if key_eqb k k' then Some v else dict_get d' k
  end.

(** [d[k] = v]: overwrite in place if present, else append. *)
Fixpoint dict_set (d : dict) (k : key) (v : pyval) : dict :=
  match d with
  | [] => [(k, v)]
  | (k', v') :: d' =>
      if key_eqb k k' then (k', v) :: d' else (k', v') :: dict_set d' k v
  end.

Definition sget (d : dict) (s : string) : option pyval := dict_get d (KStr s).
Definition sset (d : dict) (s : string) (v : pyval) : dict := dict_set d (KStr s) v.

(** [s in stats] *)
Definition mem (s : string) (l : list string) : bool :=
  existsb (String.eqb s) l.

(** Python's [a - b] on numbers. *)
Definition py_sub (a b : pyval) : result pyval :=
  match a, b with
  | PFloat x, PFloat y => Ok (PFloat (x - y))
  | PFloat x, PInt y => Ok (PFloat (x - inject_Z y))
  | PInt x, PFloat y => Ok (PFloat (inject_Z x - y))
  | PInt x, PInt y => Ok (PInt (x - y))
  | _, _ => Err TypeError
  end.

(** ** Geometries (shapely) *)

Definition point := (Q * Q)%type.

Inductive geometry :=
| Point (x y : Q)
| MultiPoint (pts : list point)
| LineString (pts : list point)
| Polygon (ring : list point)
| MultiPolygon (rings : list (list point)).

(** [(minx, miny, maxx, maxy)] *)
Record bbox := mkBBox { minx : Q; miny : Q; maxx : Q; maxy : Q }.

Definition bbox_of_points (pts : list point) : option bbox :=
  match pts with
  | [] => None
  | (x, y) :: rest =>
      Some (fold_left
              (fun b '(x', y') =>
                 mkBBox (Qmin (minx b) x') (Qmin (miny b) y')
                        (Qmax (maxx b) x') (Qmax (maxy b) y'))
              rest (mkBBox x y x y))
  end.

Definition geom_points (g : geometry) : list point :=
  match g with
  | Point x y => [(x, y)]
  | MultiPoint pts | LineString pts | Polygon pts => pts
  | MultiPolygon rs => List.concat rs
  end.

(** [geom.bounds]; an empty geometry has no bounds, and indexing them
    ([bbox_to_pixel_offsets] reads [bbox[0]]) raises. *)
Definition bounds (g : geometry) : result bbox :=
  match bbox_of_points (geom_points g) with
  | Some b => Ok b
  | None => Err IndexError
  end.

(** [shapely.geometry.box(minx, miny, maxx, maxy)]: the counter-clockwise
    closed ring starting at [(maxx, miny)]. *)
Definition box_ring (b : bbox) : list point :=
  [(maxx b, miny b); (maxx b, maxy b); (minx b, maxy b);
   (minx b, miny b); (maxx b, miny b)].

(** [pt.buffer(d).bounds]: the buffer of a point by [d > 0] is a polygon
    around the disc whose extreme vertices lie on the axes through the point;
    for [d <= 0] it is empty and [box( *())] raises [TypeError]. *)
Definition point_buffer_bounds (p : point) (d : Q) : result bbox :=
  let (x, y) := p in
  if negb (Qle_bool d 0) then Ok (mkBBox (x - d) (y - d) (x + d) (y + d))
  else Err TypeError.

(** Lines 117-122 of main.py: points become cell-sized boxes. *)
Definition normalize_geom (rgt : geotransform) (geom : geometry)
  : result geometry :=
  let buff := gt1 rgt / 2 in
  match geom with
  | MultiPoint pts =>
      let* rings := mapM (fun pt => let* b := point_buffer_bounds pt buff in
                                    Ok (box_ring b)) pts in
      Ok (MultiPolygon rings)
  | Point x y =>
      let* b := point_buffer_bounds (x, y) buff in
      Ok (Polygon (box_ring b))
  | _ => Ok geom
  end.

(** ** Helpers of rasterstats.utils

    [bbox_to_pixel_offsets], [raster_extent_as_bounds], [check_stats],
    [get_percentile], [remap_categories] and [key_assoc_val] live in
    rasterstats/utils.py, which is not part of the sources at hand; they are
    modelled from the design document (sections 3, 4.2, 4.6 and 9). *)

Definition clamp (lo hi v : Z) : Z := Z.max lo (Z.min hi v).

(** Modelled from the spec: [bbox_to_pixel_offsets] (utils.py).  The bbox
    corners are mapped to fractional column/row coordinates with the affine
    [(originX + col*pixelWidth, originY + row*pixelHeight)]; the window runs
    from the floor of the smallest to the ceiling of the largest coordinate,
    clipped to the raster, whose shape is [(rows, cols)]. *)
Definition bbox_to_pixel_offsets (rgt : geotransform) (b : bbox)
    (rshape : Z * Z) : offsets :=
  let '(rows, cols) := rshape in
  let c1 := (minx b - gt0 rgt) / gt1 rgt in
  let c2 := (maxx b - gt0 rgt) / gt1 rgt in
  let r1 := (maxy b - gt3 rgt) / gt5 rgt in
  let r2 := (miny b - gt3 rgt) / gt5 rgt in
  let x1 := clamp 0 cols (Qfloor (Qmin c1 c2)) in
  let x2 := clamp 0 cols (Qceiling (Qmax c1 c2)) in
  let y1 := clamp 0 rows (Qfloor (Qmin r1 r2)) in
  let y2 := clamp 0 rows (Qceiling (Qmax r1 r2)) in
  mkOffsets x1 y1 (x2 - x1) (y2 - y1).

(** Modelled from the spec: [raster_extent_as_bounds] (utils.py), the
    geographic bounds of the whole raster. *)
Definition raster_extent_as_bounds (rgt : geotransform) (rshape : Z * Z)
  : bbox :=
  let '(rows, cols) := rshape in
  let xa := gt0 rgt in
  let xb := gt0 rgt + inject_Z cols * gt1 rgt in
  let ya := gt3 rgt in
  let yb := gt3 rgt + inject_Z rows * gt5 rgt in
  mkBBox (Qmin xa xb) (Qmin ya yb) (Qmax xa xb) (Qmax ya yb).

(** ** Raster reads and numpy slicing *)

Definition zseq (start len : Z) : list Z :=
  map (fun k => start + Z.of_nat k)%Z (seq 0 (Z.to_nat len)).

Definition cell (g : grid Q) (r c : Z) : Q :=
  nth (Z.to_nat c) (nth (Z.to_nat r) g []) 0.

(** [src.read(band_num, window=window, masked=False)] on a raster whose
    band holds [g]: the cells of the (in-bounds) window, row by row. *)
Definition read_window (g : grid Q) (o : offsets) : grid Q :=
  map (fun r => map (fun c => cell g r c) (zseq (off_x o) (off_xsize o)))
      (zseq (off_y o) (off_ysize o)).

(** Python slice bounds: negative indices count from the end, and both
    bounds are clipped to [0, len]. *)
Definition slice_index (i len : Z) : Z :=
  if (i <? 0)%Z then Z.max 0 (len + i) else Z.min i len.

(** [l[lo:hi]] *)
Definition py_slice {A} (l : list A) (lo hi : Z) : list A :=
  let n := Z.of_nat (length l) in
  let a := slice_index lo n in
  let b := slice_index hi n in
  firstn (Z.to_nat (b - a)) (skipn (Z.to_nat a) l).

(** [a[ya:yb, xa:xb]] *)
Definition slice2 {A} (a : grid A) (ya yb xa xb : Z) : grid A :=
  map (fun row => py_slice row xa xb) (py_slice a ya yb).

(** Element-wise combination of two equally shaped arrays. *)
Fixpoint zip_with {A B C} (f : A -> B -> C) (l1 : list A) (l2 : list B)
  : list C :=
  match l1, l2 with
  | a :: l1', b :: l2' => f a b :: zip_with f l1' l2'
  | _, _ => []
  end.

Definition shape {A} (a : grid A) : nat * nat :=
  (length a, match a with [] => 0%nat | row :: _ => length row end).

Definition shape_eqb (s1 s2 : nat * nat) : bool :=
  Nat.eqb (fst s1) (fst s2) && Nat.eqb (snd s1) (snd s2).

(** [src_array == nodata_value]: with no no-data value ([None]) the
    comparison is false everywhere. *)
Definition eq_nodata (v : Q) (nodata_value : option Q) : bool :=
  match nodata_value with
  | Some n => Qeq_bool v n
  | None => false
  end.

(** Lines 165-171: [np.ma.MaskedArray(src_array, mask=np.logical_or(
    src_array == nodata_value, np.logical_not(rv_array)))]. *)
Definition build_masked (src_array : grid Q) (rv_array : grid bool)
    (nodata_value : option Q) : masked_array :=
  mkMasked src_array
    (zip_with (fun srow rrow =>
                 zip_with (fun v r => eq_nodata v nodata_value || negb r)
                          srow rrow)
              src_array rv_array).

(** [masked.compressed()]: the unmasked values in row-major order. *)
Definition compressed (m : masked_array) : list Q :=
  List.concat
    (zip_with (fun drow mrow =>
                 map fst (filter (fun p => negb (snd p)) (combine drow mrow)))
              (mdata m) (mmask m)).

(** ** numpy reductions over the surviving values *)

(** The reductions compute in exact rational arithmetic where numpy rounds
    every step to binary64: a sum, mean, variance or interpolated percentile
    here is the exact value that numpy approximates, and a relation between
    them (mean within [min, max], variance zero on equal values) need not
    hold of numpy's rounded results. *)

Fixpoint insert_q (x : Q) (l : list Q) : list Q :=
  match l with
  | [] => [x]
  | y :: l' => if Qle_bool x y then x :: l else y :: insert_q x l'
  end.

Definition sort_q (l : list Q) : list Q := fold_right insert_q [] l.

Definition qsum (l : list Q) : Q := fold_right Qplus 0 l.

Definition qmin_list (l : list Q) : Q :=
  match l with [] => 0 | x :: r => fold_left Qmin r x end.

Definition qmax_list (l : list Q) : Q :=
  match l with [] => 0 | x :: r => fold_left Qmax r x end.

Definition qmean (l : list Q) : Q := qsum l / inject_Z (Z.of_nat (length l)).

(** [masked.std()] is the square root of this (population) variance. *)
Definition qvariance (l : list Q) : Q :=
  let m := qmean l in
  qsum (map (fun x => (x - m) * (x - m)) l) / inject_Z (Z.of_nat (length l)).

(** [np.median]: the middle of the sorted values, the mean of the two
    middle ones for an even count. *)
Definition np_median (l : list Q) : Q :=
  let a := sort_q l in
  let n := length a in
  if Nat.even n then (nth (n / 2 - 1) a 0 + nth (n / 2) a 0) / 2
  else nth (n / 2) a 0.

(** [np.percentile(a, q)] with numpy's default linear interpolation:
    virtual index [q/100 * (n-1)] into the sorted values. *)
Definition np_percentile (l : list Q) (q : Q) : Q :=
  let a := sort_q l in
  let n := length a in
  let idx := q / 100 * inject_Z (Z.of_nat n - 1) in
  let lo := Z.to_nat (Qfloor idx) in
  let hi := Nat.min (S lo) (n - 1) in
  let gamma := idx - inject_Z (Qfloor idx) in
  nth lo a 0 + (nth hi a 0 - nth lo a 0) * gamma.

(** [np.unique(a, return_counts=True)]: sorted distinct values with their
    multiplicities. *)
Fixpoint group_counts (l : list Q) : list (Q * Z) :=
  match l with
  | [] => []
  | x :: l' =>
      match group_counts l' with
      | (y, c) :: rest =>
          if Qeq_bool x y then (y, (c + 1)%Z) :: rest else (x, 1%Z) :: (y, c) :: rest
      | [] => [(x, 1%Z)]
      end
  end.

Definition np_unique_counts (l : list Q) : list (Q * Z) := group_counts (sort_q l).

(** [dict(pixel_count)] *)
Definition counts_dict (pc : list (Q * Z)) : dict :=
  fold_left (fun d '(k, c) => dict_set d (KNum k) (PInt c)) pc [].

(** Modelled from the spec: [key_assoc_val(pixel_count, max | min)]
    (utils.py): the first key, in the histogram's order, whose count is the
    largest (smallest) one; [None] on an empty histogram. *)
Definition key_assoc_val (pc : list (Q * Z)) (use_max : bool) : option Q :=
  match pc with
  | [] => None
  | (_, c0) :: rest =>
      let best := fold_left (fun b '(_, c) => if use_max then Z.max b c else Z.min b c)
                            rest c0 in
      option_map fst (find (fun '(_, c) => Z.eqb c best) pc)
  end.

(** Modelled from the spec: [remap_categories(category_map, stats)]
    (utils.py): histogram keys are replaced by their label when the map has
    one, and kept otherwise. *)
Definition remap_categories (category_map : list (Q * string)) (fs : dict) : dict :=
  fold_left
    (fun d '(k, v) =>
       let k' := match k with
                 | KNum q =>
                     match find (fun '(q', _) => Qeq_bool q q') category_map with
                     | Some (_, label) => KStr label
                     | None => k
                     end
                 | KStr _ => k
                 end in
       dict_set d k' v)
    fs [].

(** ** Stat names *)

Definition is_digit (c : Ascii.ascii) : bool :=
  let n := Ascii.nat_of_ascii c in Nat.leb 48 n && Nat.leb n 57.

Definition digit_val (c : Ascii.ascii) : Z := Z.of_nat (Ascii.nat_of_ascii c - 48).

(** A decimal literal [ddd], [ddd.ddd], [.ddd] or [ddd.]. *)
Fixpoint parse_decimal (s : string) (ip fp : Z) (fd : nat) (dot : bool)
    (nd : nat) : option Q :=
  match s with
  | EmptyString =>
      if Nat.eqb nd 0 then None
      else Some (inject_Z ip + inject_Z fp / inject_Z (10 ^ Z.of_nat fd))
  | String c s' =>
      if is_digit c then
        if dot then parse_decimal s' ip (fp * 10 + digit_val c) (S fd) true (S nd)
        else parse_decimal s' (ip * 10 + digit_val c) fp fd false (S nd)
      else if Ascii.eqb c "."%char && negb dot then parse_decimal s' ip fp fd true nd
      else None
  end.

Definition pct_prefix : string := "percentile_".

(** Modelled from the spec: [get_percentile(stat)] (utils.py), the number
    [q] of [percentile_<q>], which must lie in [0, 100]. *)
Definition get_percentile (stat : string) : result Q :=
  if String.prefix pct_prefix stat then
    match parse_decimal (substring 11 (String.length stat - 11) stat) 0 0 0 false 0 with
    | Some q => if Qle_bool q 100 then Ok q else Err ValueError
    | None => Err ValueError
    end
  else Err ValueError.

Definition DEFAULT_STATS : list string := ["count"; "min"; "max"; "mean"].

Definition VALID_STATS : list string :=
  DEFAULT_STATS ++ ["sum"; "std"; "median"; "majority"; "minority";
                    "unique"; "range"; "nodata"].

(** Modelled from the spec: [check_stats(stats, categorical)] (utils.py):
    defaults to [DEFAULT_STATS], rejects unknown names, and asks for the
    histogram in categorical mode or when a histogram stat is requested. *)
Definition check_stats (stats : option (list string)) (categorical : bool)
  : result (list string * bool) :=
  let stats := match stats with Some l => l | None => DEFAULT_STATS end in
  let* _ := mapM (fun s => if mem s VALID_STATS then Ok tt
                           else let* _ := get_percentile s in Ok tt) stats in
  let run_count :=
    categorical || existsb (fun s => mem s stats)
                           ["majority"; "minority"; "unique"; "nodata"] in
  Ok (stats, run_count).

(** ** The masked reducer: lines 173-242 *)

Definition need {A} (o : option A) : result A :=
  match o with Some a => Ok a | None => Err NameError end.

Section Reduce.

Variable req : list string.          (* [stats], as returned by [check_stats] *)
Variable run_count categorical : bool.
Variable category_map : list (Q * string).

(** [dict([(stat, None) for stat in stats])] *)
Definition none_stats : dict := fold_left (fun d s => sset d s PNone) req [].

Definition set_if (s : string) (v : pyval) (fs : dict) : dict :=
  if mem s req then sset fs s v else fs.

Definition reduce (masked : masked_array) : result dict :=
  let vals := compressed masked in
  if Nat.eqb (length vals) 0 then
    (* nothing here, fill with None and move on *)
    let fs := none_stats in
    Ok (if mem "count" req then sset fs "count" (PInt 0) else fs)
  else
    let pixel_count := if run_count then Some (np_unique_counts vals) else None in
    let* fs := if categorical then
                 let* pc := need pixel_count in
                 let fs := counts_dict pc in
                 Ok (match category_map with
                     | [] => fs
                     | _ => remap_categories category_map fs
                     end)
               else Ok [] in
    let fs := set_if "min" (PFloat (qmin_list vals)) fs in
    let fs := set_if "max" (PFloat (qmax_list vals)) fs in
    let fs := set_if "mean" (PFloat (qmean vals)) fs in
    let fs := set_if "count" (PInt (Z.of_nat (length vals))) fs in
    let fs := set_if "sum" (PFloat (qsum vals)) fs in
    let fs := set_if "std" (PFloatSqrt (qvariance vals)) fs in
    let fs := set_if "median" (PFloat (np_median vals)) fs in
    let* fs := if mem "majority" req then
                 let* pc := need pixel_count in
                 Ok (sset fs "majority"
                       (match key_assoc_val pc true with
                        | Some k => PFloat k | None => PNone end))
               else Ok fs in
    let* fs := if mem "minority" req then
                 let* pc := need pixel_count in
                 Ok (sset fs "minority"
                       (match key_assoc_val pc false with
                        | Some k => PFloat k | None => PNone end))
               else Ok fs in
    let* fs := if mem "unique" req then
                 let* pc := need pixel_count in
                 Ok (sset fs "unique" (PInt (Z.of_nat (length pc))))
               else Ok fs in
    let* fs := if mem "range" req then
                 let rmin := match sget fs "min" with
                             | Some v => v | None => PFloat (qmin_list vals) end in
                 let rmax := match sget fs "max" with
                             | Some v => v | None => PFloat (qmax_list vals) end in
                 let* r := py_sub rmax rmin in
                 Ok (sset fs "range" r)
               else Ok fs in
    foldM (fun fs pctile =>
             let* q := get_percentile pctile in
             let pctarr := vals in
             Ok (sset fs pctile
                   (if Nat.eqb (length pctarr) 0 then PNone
                    else PFloat (np_percentile pctarr q))))
          fs (filter (String.prefix pct_prefix) req).

(** Lines 237-242: the [nodata] stat counts the in-geometry cells equal to
    the no-data value, over a mask that ignores the no-data exclusion. *)
Definition nodata_stat (nodata_value : option Q) (src_array : grid Q)
    (rv_array : grid bool) (fs : dict) : dict :=
  if mem "nodata" req then
    let featmasked := mkMasked src_array (map (map negb) rv_array) in
    let pixel_count := np_unique_counts (compressed featmasked) in
    let v := match nodata_value with
             | None => 0%Z
             | Some n => match find (fun '(k, _) => Qeq_bool k n) pixel_count with
                         | Some (_, c) => c
                         | None => 0%Z
                         end
             end in
    sset fs "nodata" (PInt v)
  else fs.

End Reduce.

(** ** Features, options and the global-extent store *)

(** A feature as yielded by [read_features]: its geometry, its ['fid'] if it
    has one, and its ['properties'] if it has them. *)
Record feature := mkFeature {
  geometry_ : geometry;
  fid : option pyval;
  properties : option (list (string * pyval))
}.

Inductive rtype_t := Gdal | Ndarray.

(** What [raster_info(raster, global_src_extent, nodata_value, affine,
    transform)] (io.py) returns; the model takes these as inputs. *)
Record raster_info := mkRasterInfo {
  rtype : rtype_t;
  rgt : geotransform;
  rshape : Z * Z;                  (* (rows, cols) *)
  global_src_extent : bool;
  nodata_value : option Q
}.

(** The keyword arguments of [zonal_stats] that drive the per-feature work. *)
Record zs_options := mkOptions {
  categorical : bool;
  stats : option (list string);
  copy_properties : bool;
  all_touched : bool;
  add_stats : option (list (string * (masked_array -> result pyval)));
  raster_out : bool;
  category_map : list (Q * string)
}.

(** [global_src_offset] and [global_src_array], defined only in
    global-extent mode.  For an ndarray raster the array is the caller's
    array itself. *)
Record global_src := mkGlobalSrc {
  global_src_offset : offsets;
  global_src_array : grid Q
}.

(** Where [src_array] lives: a fresh array read from the source, or a numpy
    view [global_src_array[ya:yb, xa:xb]] sharing the global array's memory. *)
Inductive src_ref :=
| Fresh (a : grid Q)
| View (ya yb xa xb : Z).

Definition src_data (gs : option global_src) (r : src_ref) : result (grid Q) :=
  match r with
  | Fresh a => Ok a
  | View ya yb xa xb =>
      let* g := need gs in Ok (slice2 (global_src_array g) ya yb xa xb)
  end.

(** [masked.data[masked.mask] = v] on the array's own cells. *)
Definition fill_masked (data : grid Q) (mask : grid bool) (v : Q) : grid Q :=
  zip_with (fun drow mrow =>
              zip_with (fun (d : Q) (m : bool) => if m then v else d) drow mrow)
           data mask.

Definition replace_segment (row : list Q) (c0 : nat) (seg : list Q) : list Q :=
  firstn c0 row ++ seg ++ skipn (c0 + length seg) row.

(** Writes [block] into [g] with its top-left corner at [(r0, c0)]. *)
Definition write_block (g : grid Q) (r0 : nat) (c0 : Z) (block : grid Q) : grid Q :=
  map (fun '(r, row) =>
         if (r0 <=? r)%nat && (r <? r0 + length block)%nat then
           replace_segment row
             (Z.to_nat (slice_index c0 (Z.of_nat (length row))))
             (nth (r - r0) block [])
         else row)
      (combine (seq 0 (length g)) g).

(** Writing the data of a masked array built on [r]: through a view the
    write lands in the global array. *)
Definition write_back (gs : option global_src) (r : src_ref) (data : grid Q)
  : option global_src :=
  match r, gs with
  | View ya _ xa _, Some g =>
      let a := global_src_array g in
      let r0 := Z.to_nat (slice_index ya (Z.of_nat (length a))) in
      Some (mkGlobalSrc (global_src_offset g) (write_block a r0 xa data))
  | _, _ => gs
  end.

(** ** zonal_stats *)

Section ZonalStats.

(** The geometry rasterizer ([rasterize_geom], utils.py, on top of
    [rasterio.features.rasterize]) is an external capability: every result
    below holds for any rasterizer. *)
Variable rasterize_geom : geometry -> offsets -> geotransform -> bool -> grid bool.

Variable raster : grid Q.           (* the band [band_num] of the raster, or the ndarray *)
Variable ri : raster_info.
Variable opts : zs_options.
Variable req : list string.         (* [stats] after [check_stats] *)
Variable run_count : bool.

(** Lines 143-156: the feature's sub-array. *)
Definition feature_src_array (gs : option global_src) (src_offset : offsets)
  : result src_ref :=
  if negb (global_src_extent ri) then
    (* use feature's source extent and read directly from source *)
    match rtype ri with
    | Gdal => Ok (Fresh (read_window raster src_offset))
    | Ndarray => Err RasterioError
    end
  else
    (* subset feature array from global source extent array *)
    let* g := need gs in
    let xa := (off_x src_offset - off_x (global_src_offset g))%Z in
    let ya := (off_y src_offset - off_y (global_src_offset g))%Z in
    let xb := (xa + off_xsize src_offset)%Z in
    let yb := (ya + off_ysize src_offset)%Z in
    Ok (View ya yb xa xb).

(** Lines 143-253: a feature whose window is not empty. *)
Definition window_stats (geom : geometry) (src_offset : offsets)
    (new_gt : geotransform) (gs : option global_src)
  : result (dict * option global_src) :=
  let* sref := feature_src_array gs src_offset in
  let* src_array := src_data gs sref in
  let rv_array := rasterize_geom geom src_offset new_gt (all_touched opts) in
  if negb (shape_eqb (shape rv_array) (shape src_array)) then Err AssertionError
  else
  let masked := build_masked src_array rv_array (nodata_value ri) in
  let* fs := reduce req run_count (categorical opts) (category_map opts) masked in
  let fs := nodata_stat req (nodata_value ri) src_array rv_array fs in
  let* fs := match add_stats opts with
             | None => Ok fs
             | Some l => foldM (fun fs '(stat_name, stat_func) =>
                                  let* v := stat_func masked in
                                  Ok (sset fs stat_name v)) fs l
             end in
  if raster_out opts then
    (* an integer array cannot hold [None] *)
    let* nd := match nodata_value ri with Some n => Ok n | None => Err TypeError end in
    let filled := fill_masked (mdata masked) (mmask masked) nd in
    let gs' := write_back gs sref filled in
    (* [masked] is stored itself: its data is its own read, or a view of the
       global array *)
    let mini := match sref with
                | Fresh _ => PMasked (mkMasked filled (mmask masked))
                | View ya yb xa xb => PMaskedView ya yb xa xb (mmask masked)
                end in
    let fs := sset fs "mini_raster" mini in
    let fs := sset fs "mini_raster_GT" (PGT new_gt) in
    let fs := sset fs "mini_raster_NDV" (PFloat nd) in
    Ok (fs, gs')
  else Ok (fs, gs).

(** Lines 112-136: the normalized geometry, its window and its local
    geotransform. *)
Definition feature_window (feat : feature)
  : result (geometry * offsets * geotransform) :=
  let rgt := rgt ri in
  let* geom := normalize_geom rgt (geometry_ feat) in
  let* geom_bounds := bounds geom in
  let src_offset := bbox_to_pixel_offsets rgt geom_bounds (rshape ri) in
  let new_gt := mkGT (gt0 rgt + inject_Z (off_x src_offset) * gt1 rgt) (gt1 rgt) 0
                     (gt3 rgt + inject_Z (off_y src_offset) * gt5 rgt) 0 (gt5 rgt) in
  Ok (geom, src_offset, new_gt).

(** Lines 255-265: the feature id, then the copied properties. *)
Definition finish_feature (i : nat) (feat : feature) (fs : dict) : dict :=
  let fs := match fid feat with
            | Some v => sset fs "__fid__" v
            | None => sset fs "__fid__" (PInt (Z.of_nat i))
            end in
  match properties feat with
  | Some props =>
      if copy_properties opts then fold_left (fun d '(k, v) => sset d k v) props fs
      else fs
  | None => fs
  end.

(** One iteration of the loop of lines 111-267. *)
Definition process_feature (i : nat) (feat : feature) (gs : option global_src)
  : result (dict * option global_src) :=
  let* w := feature_window feat in
  let '(geom, src_offset, new_gt) := w in
  let* r := if ((off_xsize src_offset <=? 0) || (off_ysize src_offset <=? 0))%Z
            then
              (* we're off the raster completely, no overlap at all *)
              Ok (none_stats req, gs)
            else window_stats geom src_offset new_gt gs in
  let '(feature_stats, gs') := r in
  Ok (finish_feature i feat feature_stats, gs').

Fixpoint zs_loop (i : nat) (feats : list feature) (gs : option global_src)
  : result (list dict * option global_src) :=
  match feats with
  | [] => Ok ([], gs)
  | feat :: rest =>
      let* r := process_feature i feat gs in
      let '(fs, gs') := r in
      let* r' := zs_loop (S i) rest gs' in
      let '(results, gs'') := r' in
      Ok (fs :: results, gs'')
  end.

End ZonalStats.

(** Lines 96-107: the global-extent array, read once. *)
Definition global_source (raster : grid Q) (ri : raster_info) : option global_src :=
  if global_src_extent ri then
    match rtype ri with
    | Gdal =>
        let extent := raster_extent_as_bounds (rgt ri) (rshape ri) in
        let off := bbox_to_pixel_offsets (rgt ri) extent (rshape ri) in
        Some (mkGlobalSrc off (read_window raster off))
    | Ndarray =>
        Some (mkGlobalSrc (mkOffsets 0 0 (Z.of_nat (length raster))
                                     (Z.of_nat (snd (shape raster)))) raster)
    end
  else None.

(** [zonal_stats]: the list of per-feature dicts, together with the final
    content of the global-extent array (for an ndarray raster, the caller's
    array). *)
Definition zonal_stats
    (rasterize_geom : geometry -> offsets -> geotransform -> bool -> grid bool)
    (raster : grid Q) (ri : raster_info) (opts : zs_options)
    (features : list feature) : result (list dict * option (grid Q)) :=
  let* sr := check_stats (stats opts) (categorical opts) in
  let '(req, run_count) := sr in
  let* r := zs_loop rasterize_geom raster ri opts req run_count 0 features
                    (global_source raster ri) in
  let '(results, gs) := r in
  Ok (results, option_map global_src_array gs).

(** ** A concrete rasterizer *)

Definition qltb (a b : Q) : bool := negb (Qle_bool b a).

Fixpoint ring_edges (ring : list point) : list (point * point) :=
  match ring with
  | a :: ((b :: _) as rest) => (a, b) :: ring_edges rest
  | _ => []
  end.

(** Even-odd test of a point against a closed ring. *)
Definition crosses (px py : Q) (e : point * point) : bool :=
  let '((xi, yi), (xj, yj)) := e in
  if xorb (qltb py yi) (qltb py yj)
  then qltb px ((xj - xi) * (py - yi) / (yj - yi) + xi)
  else false.

Definition in_ring (px py : Q) (ring : list point) : bool :=
  Nat.odd (length (filter (crosses px py) (ring_edges ring))).

Definition orient (a b c : point) : Q :=
  let '((ax, ay), (bx, by_), (cx, cy)) := (a, b, c) in
  (bx - ax) * (cy - ay) - (by_ - ay) * (cx - ax).

Definition on_segment (a b c : point) : bool :=
  let '((ax, ay), (bx, by_), (cx, cy)) := (a, b, c) in
  Qle_bool (Qmin ax bx) cx && Qle_bool cx (Qmax ax bx) &&
  Qle_bool (Qmin ay by_) cy && Qle_bool cy (Qmax ay by_).

Definition seg_intersect (p q : point * point) : bool :=
  let '((p1, p2), (q1, q2)) := (p, q) in
  let d1 := orient q1 q2 p1 in let d2 := orient q1 q2 p2 in
  let d3 := orient p1 p2 q1 in let d4 := orient p1 p2 q2 in
  (qltb (d1 * d2) 0 && qltb (d3 * d4) 0)
  || (Qeq_bool d1 0 && on_segment q1 q2 p1) || (Qeq_bool d2 0 && on_segment q1 q2 p2)
  || (Qeq_bool d3 0 && on_segment p1 p2 q1) || (Qeq_bool d4 0 && on_segment p1 p2 q2).

(** The closed cell [[x0,x1] x [y0,y1]] as a ring and as a bbox. *)
Definition cell_bbox (x0 y0 x1 y1 : Q) : bbox :=
  mkBBox (Qmin x0 x1) (Qmin y0 y1) (Qmax x0 x1) (Qmax y0 y1).

Definition in_bbox (b : bbox) (p : point) : bool :=
  let (x, y) := p in
  Qle_bool (minx b) x && Qle_bool x (maxx b) && Qle_bool (miny b) y && Qle_bool y (maxy b).

Definition path_touches_cell (b : bbox) (pts : list point) : bool :=
  existsb (in_bbox b) pts ||
  existsb (fun e => existsb (seg_intersect e) (ring_edges (box_ring b)))
          (ring_edges pts).

Definition ring_touches_cell (b : bbox) (ring : list point) : bool :=
  path_touches_cell b ring ||
  existsb (fun '(x, y) => in_ring x y ring) (box_ring b).

(** Modelled from the spec: [rasterize_geom(geom, src_offset, new_gt,
    all_touched)] (utils.py, section 4.4): a [ysize x xsize] grid aligned on
    [new_gt]; without [all_touched] a cell is burned when its center lies
    inside the geometry (even-odd rule), with [all_touched] when the
    geometry meets the closed cell. *)
Definition rasterize_spec (geom : geometry) (o : offsets) (g : geotransform)
    (at_ : bool) : grid bool :=
  map (fun r =>
         map (fun c =>
                let x0 := gt0 g + inject_Z c * gt1 g in
                let x1 := gt0 g + inject_Z (c + 1) * gt1 g in
                let y0 := gt3 g + inject_Z r * gt5 g in
                let y1 := gt3 g + inject_Z (r + 1) * gt5 g in
                let b := cell_bbox x0 y0 x1 y1 in
                let cx := (x0 + x1) / 2 in
                let cy := (y0 + y1) / 2 in
                match geom with
                | Polygon ring =>
                    if at_ then ring_touches_cell b ring else in_ring cx cy ring
                | MultiPolygon rings =>
                    existsb (fun ring => if at_ then ring_touches_cell b ring
                                         else in_ring cx cy ring) rings
                | LineString pts => at_ && path_touches_cell b pts
                | Point x y => at_ && in_bbox b (x, y)
                | MultiPoint pts => at_ && existsb (in_bbox b) pts
                end)
             (zseq 0 (off_xsize o)))
      (zseq 0 (off_ysize o)).

(** ** Readings of the design document, to compare with the code *)

(** The axis-aligned square of side [side] centered on [c]. *)
Definition square_centered (c : point) (side : Q) : bbox :=
  let (x, y) := c in
  mkBBox (x - side / 2) (y - side / 2) (x + side / 2) (y + side / 2).

(** Number of cells inside the geometry ([rv] true) whose value equals the
    no-data value; 0 without a no-data value. *)
Definition inside_nodata_count (nodata_value : option Q) (src : grid Q)
    (rv : grid bool) : nat :=
  length (filter (fun '(v, r) => r && eq_nodata v nodata_value)
                 (List.concat (zip_with (@combine Q bool) src rv))).

(** The value the design document gives a requested stat when no cell
    survives the mask. *)
Definition all_masked_value (nodata_value : option Q) (src : grid Q)
    (rv : grid bool) (s : string) : pyval :=
  if String.eqb s "count" then PInt 0
  else if String.eqb s "nodata" then PInt (Z.of_nat (inside_nodata_count nodata_value src rv))
  else PNone.

(** The ['__fid__'] the design document promises: the declared id, else the
    0-based position. *)
Definition expected_fid (i : nat) (feat : feature) : pyval :=
  match fid feat with
  | Some v => v
  | None => PInt (Z.of_nat i)
  end.

(** ** Concrete inputs *)

(** A one-row, three-column north-up raster with unit cells, origin
    [(0, 1)], no-data value 0. *)
Definition gt_unit : geotransform := mkGT 0 1 0 1 0 (-1).
Definition raster_1x3 : grid Q := [[1; 2; 3]].
Definition info_1x3 (rt : rtype_t) (global : bool) : raster_info :=
  mkRasterInfo rt gt_unit (1, 3)%Z global (Some 0).

(** Two points on the outer cells: their boxes leave the middle cell of
    their common window outside the geometry. *)
Definition feat_outer_points : feature :=
  mkFeature (MultiPoint [(1 # 2, 1 # 2); (5 # 2, 1 # 2)]) None None.
(** A point on the middle cell. *)
Definition feat_middle_point : feature := mkFeature (Point (3 # 2) (1 # 2)) None None.
(** A polygon far outside the raster. *)
Definition feat_outside : feature :=
  mkFeature (Polygon (box_ring (mkBBox 5 5 6 6))) None None.

Definition opts_with (st : list string) (copy_props rout : bool) : zs_options :=
  mkOptions false (Some st) copy_props false None rout [].

(** A point on the middle cell whose properties hold a ['__fid__']. *)
Definition feat_fid_prop : feature :=
  mkFeature (Point (3 # 2) (1 # 2)) None (Some [("__fid__", PInt 42)]).

(** ** Helpers of the proofs *)

Definition set_all (props : list (string * pyval)) (d0 : dict) : dict :=
  fold_left (fun d '(k, v) => sset d k v) props d0.

Definition count_eq (n : Q) (l : list Q) : nat :=
  length (filter (fun x => Qeq_bool x n) l).

Definition key_lt_all (x : Q) (g : list (Q * Z)) : Prop :=
  forall k c, In (k, c) g -> x < k.

(** A one-row window of six cells: a no-data cell (value 0) inside the
    geometry, the last cell outside it. *)
Definition grid_1x6 : grid Q := [[4; 1; 0; 3; 1; 7]].
Definition inside_1x6 : grid bool := [[true; true; true; true; true; false]].
Definition masked_1x6 : masked_array := build_masked grid_1x6 inside_1x6 (Some 0).
Definition req_all : list string :=
  ["min"; "max"; "mean"; "count"; "sum"; "std"; "median"; "majority"; "minority";
   "unique"; "range"; "percentile_50"; "nodata"].

Definition ok_or {A} (d : A) (r : result A) : A := match r with Ok a => a | Err _ => d end.

(** The window of [feat_outer_points]. *)
Definition win_outer : geometry * offsets * geotransform :=
  ok_or (Point 0 0, mkOffsets 0 0 0 0, gt_unit)
        (feature_window (info_1x3 Gdal false) feat_outer_points).


(** A user statistic named like the built-in ['count']. *)
Definition count_twice (m : masked_array) : result pyval :=
  Ok (PInt (2 * Z.of_nat (length (compressed m)))).
Definition opts_count_twice : zs_options :=
  mkOptions false (Some ["count"]) false false (Some [("count", count_twice)]) false [].

Definition ws_outer_add : result (dict * option global_src) :=
  window_stats rasterize_spec raster_1x3 (info_1x3 Gdal false) opts_count_twice
    ["count"] false (fst (fst win_outer)) (snd (fst win_outer)) (snd win_outer) None.

(** A point on the middle cell with a property named ['count']. *)
Definition feat_count_prop : feature :=
  mkFeature (Point (3 # 2) (1 # 2)) None (Some [("count", PInt 7)]).

(** Lines 190-205: the stats set one after the other on [fs0]. *)
Definition base_stats (req : list string) (vals : list Q) (fs0 : dict) : dict :=
  let fs := set_if req "min" (PFloat (qmin_list vals)) fs0 in
  let fs := set_if req "max" (PFloat (qmax_list vals)) fs in
  let fs := set_if req "mean" (PFloat (qmean vals)) fs in
  let fs := set_if req "count" (PInt (Z.of_nat (length vals))) fs in
  let fs := set_if req "sum" (PFloat (qsum vals)) fs in
  let fs := set_if req "std" (PFloatSqrt (qvariance vals)) fs in
  set_if req "median" (PFloat (np_median vals)) fs.

(** * Lemmas *)

(** ** Dicts with string keys *)

Lemma key_eqb_str (s : string) (k : key) : key_eqb (KStr s) k = true <-> k = KStr s.
Proof.
  destruct k as [s' | q]; simpl; split; intro H; try discriminate.
  - apply String.eqb_eq in H; subst; reflexivity.
  - inversion H; subst; apply String.eqb_refl.
Qed.

Lemma sget_sset_same (d : dict) (s : string) (v : pyval) :
  sget (sset d s v) s = Some v.
Proof.
  unfold sget, sset; induction d as [|[k' v'] d IH]; simpl.
  - rewrite String.eqb_refl; reflexivity.
  - destruct k' as [s0 | q]; simpl; [|exact IH].
    destruct (String.eqb s s0) eqn:E; simpl; rewrite E; [reflexivity | exact IH].
Qed.

Lemma sget_sset_other (d : dict) (s s' : string) (v : pyval) :
  s' <> s -> sget (sset d s v) s' = sget d s'.
Proof.
  intro Hne; unfold sget, sset; induction d as [|[k' v'] d IH]; simpl.
  - destruct (String.eqb s' s) eqn:E; [apply String.eqb_eq in E; congruence | reflexivity].
  - destruct k' as [s0 | q]; simpl; [|exact IH].
    destruct (String.eqb s s0) eqn:E.
    + apply String.eqb_eq in E; subst s0; simpl.
      destruct (String.eqb s' s) eqn:E'; [apply String.eqb_eq in E'; congruence | reflexivity].
    + simpl; destruct (String.eqb s' s0); [reflexivity | exact IH].
Qed.

Lemma mem_In (s : string) (l : list string) : mem s l = true <-> In s l.
Proof.
  unfold mem; rewrite existsb_exists; split.
  - intros [x [Hx E]]; apply String.eqb_eq in E; subst; exact Hx.
  - intro H; exists s; split; [exact H | apply String.eqb_refl].
Qed.

Lemma sget_fold_none (req : list string) (d0 : dict) (s : string) :
  sget (fold_left (fun d s => sset d s PNone) req d0) s =
  if mem s req then Some PNone else sget d0 s.
Proof.
  revert d0; induction req as [|s1 req IH]; intro d0; simpl; [reflexivity|].
  rewrite IH; destruct (String.eqb s s1) eqn:E; simpl.
  - apply String.eqb_eq in E; subst s1.
    destruct (mem s req); [reflexivity | apply sget_sset_same].
  - destruct (mem s req); [reflexivity|].
    apply sget_sset_other; intro; subst; rewrite String.eqb_refl in E; discriminate.
Qed.

Lemma sget_set_all_notin (props : list (string * pyval)) (d0 : dict) (s : string) :
  ~ In s (map fst props) -> sget (set_all props d0) s = sget d0 s.
Proof.
  unfold set_all; revert d0; induction props as [|[k v] props IH]; intros d0 Hn; simpl in *;
    [reflexivity|].
  rewrite IH by tauto; apply sget_sset_other; intro; subst; tauto.
Qed.

Lemma sget_set_all_in (props : list (string * pyval)) (d0 : dict) (s : string) (v : pyval) :
  NoDup (map fst props) -> In (s, v) props -> sget (set_all props d0) s = Some v.
Proof.
  unfold set_all; revert d0; induction props as [|[k w] props IH]; intros d0 Hnd Hin;
    simpl in *; [contradiction|].
  inversion Hnd as [|? ? Hk Hnd']; subst.
  destruct Hin as [E | Hin].
  - inversion E; subst k w.
    fold (set_all props (sset d0 s v)).
    rewrite sget_set_all_notin by exact Hk; apply sget_sset_same.
  - apply IH; assumption.
Qed.

(** ** Element-wise operations *)


(** ** Sorting and counting (np.unique) *)

Lemma count_eq_compat (n n' : Q) (l : list Q) : n == n' -> count_eq n l = count_eq n' l.
Proof.
  intro E; unfold count_eq; f_equal; apply filter_ext; intro x.
  destruct (Qeq_bool x n) eqn:E1, (Qeq_bool x n') eqn:E2; auto;
    apply Qeq_bool_iff in E1 || apply Qeq_bool_iff in E2;
    [ rewrite E in E1 | rewrite <- E in E2 ];
    apply Qeq_bool_iff in E1 || apply Qeq_bool_iff in E2; congruence.
Qed.

Lemma count_eq_cons (n x : Q) (l : list Q) :
  count_eq n (x :: l) = ((if Qeq_bool x n then 1 else 0) + count_eq n l)%nat.
Proof. unfold count_eq; simpl; destruct (Qeq_bool x n); reflexivity. Qed.

Lemma count_eq_app (n : Q) (l1 l2 : list Q) :
  count_eq n (l1 ++ l2) = (count_eq n l1 + count_eq n l2)%nat.
Proof. unfold count_eq; rewrite filter_app, length_app; reflexivity. Qed.

Lemma count_eq_perm (n : Q) (l l' : list Q) :
  Permutation l l' -> count_eq n l = count_eq n l'.
Proof.
  induction 1; rewrite ?count_eq_cons; try lia.
Qed.

Lemma count_eq_none (n : Q) (l : list Q) :
  (forall z, In z l -> Qeq_bool z n = false) -> count_eq n l = 0%nat.
Proof.
  induction l as [|x l IH]; intro H; [reflexivity|].
  rewrite count_eq_cons, (H x (or_introl eq_refl)), IH; [reflexivity|].
  intros z Hz; apply H; right; exact Hz.
Qed.

Lemma insert_q_perm (x : Q) (l : list Q) : Permutation (insert_q x l) (x :: l).
Proof.
  induction l as [|y l IH]; simpl; [reflexivity|].
  destruct (Qle_bool x y); [reflexivity|].
  rewrite IH; apply perm_swap.
Qed.

Lemma sort_q_perm (l : list Q) : Permutation (sort_q l) l.
Proof.
  induction l as [|x l IH]; simpl; [reflexivity|].
  rewrite insert_q_perm, IH; reflexivity.
Qed.

Lemma insert_q_sorted (x : Q) (l : list Q) :
  StronglySorted Qle l -> StronglySorted Qle (insert_q x l).
Proof.
  induction l as [|y l IH]; intro Hs; simpl.
  - constructor; [constructor | constructor].
  - apply StronglySorted_inv in Hs as [Hs Hy].
    destruct (Qle_bool x y) eqn:E.
    + apply Qle_bool_iff in E.
      constructor; [constructor; assumption|].
      constructor; [exact E|].
      eapply Forall_impl; [|exact Hy]; intros z Hz; eapply Qle_trans; eassumption.
    + constructor; [apply IH; exact Hs|].
      apply Forall_forall; intros z Hz.
      apply (Permutation_in _ (insert_q_perm x l)) in Hz; destruct Hz as [<- | Hz].
      * apply Qlt_le_weak, Qnot_le_lt; intro C; apply Qle_bool_iff in C; congruence.
      * rewrite Forall_forall in Hy; apply Hy; exact Hz.
Qed.

Lemma sort_q_sorted (l : list Q) : StronglySorted Qle (sort_q l).
Proof.
  induction l as [|x l IH]; simpl; [constructor | apply insert_q_sorted; exact IH].
Qed.

Lemma group_counts_cons (x : Q) (l : list Q) :
  group_counts (x :: l) =
  match group_counts l with
  | (y, c) :: rest =>
      if Qeq_bool x y then (y, (c + 1)%Z) :: rest else (x, 1%Z) :: (y, c) :: rest
  | [] => [(x, 1%Z)]
  end.
Proof. reflexivity. Qed.

(** The histogram of a sorted list: each count is the multiplicity of its
    key, the first key is the smallest value, and every value has a key. *)
Lemma group_counts_sorted (s : list Q) :
  StronglySorted Qle s ->
  (forall k c, In (k, c) (group_counts s) -> c = Z.of_nat (count_eq k s)) /\
  (match s with
   | [] => group_counts s = []
   | x :: _ => exists k0 c0 rest, group_counts s = (k0, c0) :: rest /\ k0 == x /\
                                  key_lt_all x rest
   end) /\
  (forall z, In z s -> exists k c, In (k, c) (group_counts s) /\ k == z).
Proof.
  induction s as [|x s IH]; intro Hs.
  - split; [intros k c []|]; split; [reflexivity | intros z []].
  - apply StronglySorted_inv in Hs as [Hs' Hx].
    destruct (IH Hs') as [H1 [H2 H3]].
    destruct s as [|x' s''].
    + simpl.
      split; [|split].
      * intros k c [E | []]; inversion E; subst.
        unfold count_eq; simpl; rewrite Qeq_bool_refl; reflexivity.
      * exists x, 1%Z, []; split; [reflexivity|]; split; [reflexivity | intros k c []].
      * intros z [<- | []]; exists x, 1%Z; split; [left; reflexivity | reflexivity].
    + destruct H2 as [k0 [c0 [rest [HG [Hk0 Hrest]]]]].
      assert (Hxx' : x <= x') by (inversion Hx; assumption).
      rewrite HG in H1, H3.
      rewrite group_counts_cons, HG.
      destruct (Qeq_bool x k0) eqn:E.
      * apply Qeq_bool_iff in E.
        assert (Hlt : key_lt_all x rest)
          by (intros k c Hin; rewrite E, Hk0; exact (Hrest k c Hin)).
        split; [|split].
        -- intros k c [Eh | Hin].
           ++ inversion Eh; subst k c.
              rewrite count_eq_cons.
              assert (Qeq_bool x k0 = true) as -> by (apply Qeq_bool_iff; exact E).
              rewrite (H1 k0 c0 (or_introl eq_refl)); lia.
           ++ rewrite count_eq_cons.
              assert (Qeq_bool x k = false) as ->.
              { apply not_true_iff_false; intro C; apply Qeq_bool_iff in C.
                pose proof (Hlt k c Hin) as L; rewrite C in L; apply (Qlt_irrefl k L). }
              apply H1; right; exact Hin.
        -- exists k0, (c0 + 1)%Z, rest; split; [reflexivity|].
           split; [symmetry; exact E | exact Hlt].
        -- intros z [<- | Hz].
           ++ exists k0, (c0 + 1)%Z; split; [left; reflexivity | symmetry; exact E].
           ++ destruct (H3 z Hz) as [k [c [[Eh | Hin] Hkz]]].
              ** inversion Eh; subst k c.
                 exists k0, (c0 + 1)%Z; split; [left; reflexivity | exact Hkz].
              ** exists k, c; split; [right; exact Hin | exact Hkz].
      * assert (Hlt0 : x < k0).
        { apply Qle_lt_or_eq in Hxx' as [L | Eq]; [rewrite Hk0; exact L|].
          exfalso; apply not_true_iff_false in E; apply E, Qeq_bool_iff.
          rewrite Hk0; exact Eq. }
        assert (Hlt : key_lt_all x ((k0, c0) :: rest)).
        { intros k c [Eh | Hin]; [inversion Eh; subst; exact Hlt0|].
          apply Qle_lt_trans with x'; [exact Hxx' | exact (Hrest k c Hin)]. }
        assert (Hne : forall k c, In (k, c) ((k0, c0) :: rest) -> Qeq_bool x k = false).
        { intros k c Hin; apply not_true_iff_false; intro C; apply Qeq_bool_iff in C.
          pose proof (Hlt k c Hin) as L; rewrite C in L; apply (Qlt_irrefl k L). }
        split; [|split].
        -- intros k c [Eh | Hin].
           ++ inversion Eh; subst k c.
              rewrite count_eq_cons, Qeq_bool_refl, count_eq_none; [reflexivity|].
              intros z Hz; destruct (H3 z Hz) as [k [c [Hin Hkz]]].
              apply not_true_iff_false; intro C; apply Qeq_bool_iff in C.
              pose proof (Hlt k c Hin) as L; rewrite Hkz, C in L; apply (Qlt_irrefl x L).
           ++ rewrite count_eq_cons, (Hne k c Hin); apply H1; exact Hin.
        -- exists x, 1%Z, ((k0, c0) :: rest); split; [reflexivity|].
           split; [reflexivity | exact Hlt].
        -- intros z [<- | Hz].
           ++ exists x, 1%Z; split; [left; reflexivity | reflexivity].
           ++ destruct (H3 z Hz) as [k [c [Hin Hkz]]].
              exists k, c; split; [right; exact Hin | exact Hkz].
Qed.

(** [pixel_count.get(n, 0)] on [np.unique]'s histogram is the multiplicity
    of [n]. *)
Lemma unique_counts_get (l : list Q) (n : Q) :
  match find (fun '(k, _) => Qeq_bool k n) (np_unique_counts l) with
  | Some (_, c) => c
  | None => 0%Z
  end = Z.of_nat (count_eq n l).
Proof.
  unfold np_unique_counts.
  rewrite <- (count_eq_perm n _ _ (sort_q_perm l)).
  destruct (group_counts_sorted (sort_q l) (sort_q_sorted l)) as [H1 [_ H3]].
  destruct (find (fun '(k, _) => Qeq_bool k n) (group_counts (sort_q l))) as [[k c]|] eqn:F.
  - apply find_some in F as [Hin Hk]; apply Qeq_bool_iff in Hk.
    rewrite (H1 k c Hin); f_equal; apply count_eq_compat; exact Hk.
  - rewrite count_eq_none; [reflexivity|].
    intros z Hz; apply not_true_iff_false; intro C; apply Qeq_bool_iff in C.
    destruct (H3 z Hz) as [k [c [Hin Hkz]]].
    pose proof (find_none _ _ F (k, c) Hin) as Hf; simpl in Hf.
    apply not_true_iff_false in Hf; apply Hf, Qeq_bool_iff; rewrite Hkz; exact C.
Qed.

(** ** The in-geometry mask of the [nodata] stat *)

Lemma count_row_inside (n : Q) (drow : list Q) (rrow : list bool) :
  count_eq n (map fst (filter (fun p => negb (snd p)) (combine drow (map negb rrow)))) =
  length (filter (fun '(v, r) => r && Qeq_bool v n) (combine drow rrow)).
Proof.
  revert rrow; induction drow as [|v drow IH]; intros [|r rrow]; simpl; try reflexivity.
  destruct r; simpl; [|apply IH].
  rewrite count_eq_cons, IH; destruct (Qeq_bool v n); reflexivity.
Qed.

Lemma count_compressed_inside (n : Q) (src : grid Q) (rv : grid bool) :
  count_eq n (compressed (mkMasked src (map (map negb) rv))) =
  inside_nodata_count (Some n) src rv.
Proof.
  unfold compressed, inside_nodata_count; simpl.
  revert rv; induction src as [|drow src IH]; intros [|rrow rv]; simpl; try reflexivity.
  rewrite count_eq_app, filter_app, length_app, IH, count_row_inside; reflexivity.
Qed.

Lemma inside_nodata_count_none (src : grid Q) (rv : grid bool) :
  inside_nodata_count None src rv = 0%nat.
Proof.
  unfold inside_nodata_count; simpl.
  induction (List.concat (zip_with (combine (B:=bool)) src rv)) as [|[v r] l IH];
    simpl; [reflexivity|].
  rewrite andb_false_r; exact IH.
Qed.

(** The [nodata] stat is the number of in-geometry no-data cells. *)
Lemma sget_nodata_stat (req : list string) (nd : option Q) (src : grid Q)
    (rv : grid bool) (fs : dict) :
  mem "nodata" req = true ->
  sget (nodata_stat req nd src rv fs) "nodata" =
  Some (PInt (Z.of_nat (inside_nodata_count nd src rv))).
Proof.
  intro Hm; unfold nodata_stat; rewrite Hm, sget_sset_same.
  destruct nd as [n|].
  - rewrite unique_counts_get, count_compressed_inside; reflexivity.
  - rewrite inside_nodata_count_none; reflexivity.
Qed.

(** * The claims *)

(** ** The excluded-mask *)



(** ** A window where no cell survives *)

(** C5 (counterexample): a point on a no-data cell, with [count] and
    [nodata] requested: [nodata] is 1, not [None]. *)
Lemma all_masked_nodata_counted :
  zonal_stats rasterize_spec [[0; 2; 3]] (info_1x3 Gdal false)
    (opts_with ["count"; "nodata"] false false)
    [mkFeature (Point (1 # 2) (1 # 2)) None None] =
  Ok ([[(KStr "count", PInt 0); (KStr "nodata", PInt 1); (KStr "__fid__", PInt 0)]], None).
Proof. vm_compute; reflexivity. Qed.

(** C5 (amended): when the window is not empty but no cell survives the
    mask, every requested stat is [None], except [count], which is 0, and
    [nodata], which is the number of cells inside the geometry holding the
    no-data value (0 when there is no no-data value). *)
Theorem reduce_all_masked (req : list string) (run_count categorical : bool)
    (category_map : list (Q * string)) (nd : option Q) (src : grid Q) (rv : grid bool) :
  compressed (build_masked src rv nd) = [] ->
  exists fs,
    reduce req run_count categorical category_map (build_masked src rv nd) = Ok fs /\
    forall s, In s req ->
      sget (nodata_stat req nd src rv fs) s = Some (all_masked_value nd src rv s).
Proof.
  intro Hc; unfold reduce; rewrite Hc; simpl.
  eexists; split; [reflexivity|].
  intros s Hs; unfold all_masked_value.
  destruct (String.eqb s "nodata") eqn:En.
  - apply String.eqb_eq in En; subst s.
    rewrite sget_nodata_stat by (apply mem_In; exact Hs); reflexivity.
  - assert (Hne : s <> "nodata") by (intro; subst; discriminate).
    assert (Hns : sget (nodata_stat req nd src rv
                          (if mem "count" req then sset (none_stats req) "count" (PInt 0)
                           else none_stats req)) s =
                  sget (if mem "count" req then sset (none_stats req) "count" (PInt 0)
                        else none_stats req) s)
      by (unfold nodata_stat; destruct (mem "nodata" req);
          [apply sget_sset_other; exact Hne | reflexivity]).
    rewrite Hns.
    assert (Hm : mem s req = true) by (apply mem_In; exact Hs).
    destruct (String.eqb s "count") eqn:Ec.
    + apply String.eqb_eq in Ec; subst s; rewrite Hm; apply sget_sset_same.
    + assert (sget (none_stats req) s = Some PNone)
        by (unfold none_stats; rewrite sget_fold_none, Hm; reflexivity).
      destruct (mem "count" req); [|assumption].
      rewrite sget_sset_other; [assumption|].
      intro; subst; discriminate.
Qed.

Lemma reduce_all_masked_witness :
  compressed (build_masked [[0; 2]] [[true; false]] (Some 0)) = [] /\
  exists fs,
    reduce ["count"; "min"; "nodata"] true false [] (build_masked [[0; 2]] [[true; false]] (Some 0))
      = Ok fs /\
    forall s, In s ["count"; "min"; "nodata"] ->
      sget (nodata_stat ["count"; "min"; "nodata"] (Some 0) [[0; 2]] [[true; false]] fs) s =
      Some (all_masked_value (Some 0) [[0; 2]] [[true; false]] s).
Proof.
  split; [vm_compute; reflexivity|].
  apply reduce_all_masked; vm_compute; reflexivity.
Defined.

(** ** percentile_50 and median *)

Lemma sort_q_length (l : list Q) : length (sort_q l) = length l.
Proof. apply Permutation_length, sort_q_perm. Qed.

Lemma Qfloor_half_index (z : Z) :
  Qfloor ((50 # 1) / 100 * inject_Z z) = (50 * z / 100)%Z.
Proof. reflexivity. Qed.

Lemma np_percentile_50_median (l : list Q) :
  l <> [] -> np_percentile l (50 # 1) == np_median l.
Proof.
  intro Hl; unfold np_percentile, np_median; cbv zeta.
  set (a := sort_q l); set (n := length a).
  assert (Hn : (n > 0)%nat)
    by (subst n a; rewrite sort_q_length; destruct l; [congruence | simpl; lia]).
  rewrite Qfloor_half_index.
  destruct (Nat.Even_or_Odd n) as [[k Hk] | [k Hk]].
  - (* an even count 2(k+1): interpolate half-way between k and k+1 *)
    destruct k as [|k]; [lia|].
    assert (Hz : (Z.of_nat n - 1 = 2 * Z.of_nat k + 1)%Z) by lia.
    assert (Hfl : (50 * (Z.of_nat n - 1) / 100)%Z = Z.of_nat k).
    { symmetry; apply Z.div_unique with (r := 50%Z); lia. }
    rewrite Hfl, Nat2Z.id.
    assert (Hev : Nat.even n = true) by (apply Nat.even_spec; exists (S k); exact Hk).
    rewrite Hev.
    replace (Nat.min (S k) (n - 1)) with (S k) by lia.
    replace (n / 2)%nat with (S k)
      by (rewrite Hk, Nat.mul_comm, Nat.div_mul; lia).
    replace (S k - 1)%nat with k by lia.
    rewrite Hz.
    assert (Hg : inject_Z (2 * Z.of_nat k + 1) == 2 * inject_Z (Z.of_nat k) + 1)
      by (rewrite inject_Z_plus, inject_Z_mult; reflexivity).
    rewrite Hg; field.
  - (* an odd count 2k+1: the virtual index k is an integer *)
    assert (Hz : (Z.of_nat n - 1 = 2 * Z.of_nat k)%Z) by lia.
    assert (Hfl : (50 * (Z.of_nat n - 1) / 100)%Z = Z.of_nat k).
    { symmetry; apply Z.div_unique with (r := 0%Z); lia. }
    rewrite Hfl, Nat2Z.id.
    assert (Hev : Nat.even n = false)
      by (rewrite Hk, Nat.add_comm, Nat.even_add_mul_2; reflexivity).
    rewrite Hev.
    replace (n / 2)%nat with k
      by (apply Nat.div_unique with (r := 1%nat); lia).
    rewrite Hz.
    assert (Hg : inject_Z (2 * Z.of_nat k) == 2 * inject_Z (Z.of_nat k))
      by (rewrite inject_Z_mult; reflexivity).
    rewrite Hg; field.
Qed.

Lemma bind_Ok {A B} (m : result A) (f : A -> result B) (b : B) :
  bind m f = Ok b -> exists a, m = Ok a /\ f a = Ok b.
Proof. destruct m as [a | e]; simpl; [intro H; exists a; split; [reflexivity | exact H] | discriminate]. Qed.

Lemma sget_set_if_same (req : list string) (s : string) (v : pyval) (fs : dict) :
  mem s req = true -> sget (set_if req s v fs) s = Some v.
Proof. intro H; unfold set_if; rewrite H; apply sget_sset_same. Qed.

Lemma sget_set_if_other (req : list string) (s s' : string) (v : pyval) (fs : dict) :
  s' <> s -> sget (set_if req s v fs) s' = sget fs s'.
Proof. intro H; unfold set_if; destruct (mem s req); [apply sget_sset_other; exact H | reflexivity]. Qed.

Lemma foldM_sset_keep (g : string -> Q -> pyval) (l : list string) (fs0 fs : dict) (s : string) :
  ~ In s l ->
  foldM (fun fs pctile => bind (get_percentile pctile) (fun q => Ok (sset fs pctile (g pctile q))))
        fs0 l = Ok fs ->
  sget fs s = sget fs0 s.
Proof.
  revert fs0; induction l as [|x l IH]; intros fs0 Hn H; simpl in H.
  - injection H as <-; reflexivity.
  - apply bind_Ok in H as [fs1 [H1 H]].
    apply bind_Ok in H1 as [q [_ H1]]; injection H1 as <-.
    rewrite (IH _ (fun Hin => Hn (or_intror Hin)) H).
    apply sget_sset_other; intro; subst; apply Hn; left; reflexivity.
Qed.

Lemma foldM_sset_in (g : string -> Q -> pyval) (l : list string) (fs0 fs : dict) (s : string) (q : Q) :
  In s l -> get_percentile s = Ok q ->
  foldM (fun fs pctile => bind (get_percentile pctile) (fun q => Ok (sset fs pctile (g pctile q))))
        fs0 l = Ok fs ->
  sget fs s = Some (g s q).
Proof.
  revert fs0; induction l as [|x l IH]; intros fs0 Hin Hq H; simpl in H; [contradiction|].
  apply bind_Ok in H as [fs1 [H1 H]].
  apply bind_Ok in H1 as [q' [Hq' H1]]; injection H1 as <-.
  destruct (in_dec string_dec s l) as [Hl | Hl].
  - exact (IH _ Hl Hq H).
  - destruct Hin as [-> | Hin]; [|contradiction].
    rewrite (foldM_sset_keep g l _ _ s Hl H), sget_sset_same.
    rewrite Hq in Hq'; injection Hq' as ->; reflexivity.
Qed.

Ltac next_step H :=
  apply bind_Ok in H;
  let fs' := fresh "fs" in let Hs := fresh "Hs" in
  destruct H as [fs' [Hs H]]; cbv beta in H.

(** A step of [reduce] that sets a key other than [s] keeps [s]. *)
Ltac keep_step Hs s :=
  match type of Hs with
  | (if ?b then _ else _) = _ =>
      destruct b;
      [ apply bind_Ok in Hs as [? [_ Hs]]; injection Hs as <-;
        rewrite sget_sset_other by discriminate
      | injection Hs as <- ]
  end.

(** The last step of a successful [reduce] on a window with surviving
    cells: the percentiles, set on top of the other stats. *)
Lemma reduce_nonempty_pcts (req : list string) (rc cat : bool) (cm : list (Q * string))
    (m : masked_array) (fs : dict) :
  compressed m <> [] ->
  reduce req rc cat cm m = Ok fs ->
  exists fsR,
    foldM (fun fs pctile =>
             bind (get_percentile pctile)
                  (fun q => Ok (sset fs pctile
                                  ((fun _ q => if Nat.eqb (length (compressed m)) 0 then PNone
                                               else PFloat (np_percentile (compressed m) q))
                                     pctile q))))
          fsR (filter (String.prefix pct_prefix) req) = Ok fs /\
    (mem "median" req = true -> sget fsR "median" = Some (PFloat (np_median (compressed m)))).
Proof.
  intros Hne H; unfold reduce in H; cbv zeta in H.
  destruct (Nat.eqb (length (compressed m)) 0) eqn:E.
  { apply Nat.eqb_eq, length_zero_iff_nil in E; contradiction. }
  next_step H. next_step H. next_step H. next_step H. next_step H.
  eexists; split; [exact H|].
  intro Hmed.
  keep_step Hs3 "median"; keep_step Hs2 "median"; keep_step Hs1 "median";
    keep_step Hs0 "median"; apply sget_set_if_same; exact Hmed.
Qed.

(** C9: on a window with surviving cells, requesting [percentile_50] gives
    the same number as requesting [median] (exactly, in rational
    arithmetic), whatever else is requested alongside. *)
Theorem percentile_50_is_median (req1 req2 : list string) (rc1 rc2 cat1 cat2 : bool)
    (cm1 cm2 : list (Q * string)) (m : masked_array) (fs1 fs2 : dict) :
  compressed m <> [] ->
  In "percentile_50" req1 -> In "median" req2 ->
  reduce req1 rc1 cat1 cm1 m = Ok fs1 -> reduce req2 rc2 cat2 cm2 m = Ok fs2 ->
  exists p md, sget fs1 "percentile_50" = Some (PFloat p) /\
               sget fs2 "median" = Some (PFloat md) /\ p == md.
Proof.
  intros Hne Hp Hm H1 H2.
  assert (E : Nat.eqb (length (compressed m)) 0 = false).
  { apply Nat.eqb_neq; intro E; apply length_zero_iff_nil in E; contradiction. }
  destruct (reduce_nonempty_pcts _ _ _ _ _ _ Hne H1) as [fsR1 [F1 _]].
  destruct (reduce_nonempty_pcts _ _ _ _ _ _ Hne H2) as [fsR2 [F2 M2]].
  exists (np_percentile (compressed m) (50 # 1)), (np_median (compressed m)).
  split; [|split].
  - assert (Hin : In "percentile_50" (filter (String.prefix pct_prefix) req1))
      by (apply filter_In; split; [exact Hp | reflexivity]).
    rewrite (foldM_sset_in (fun _ q => if Nat.eqb (length (compressed m)) 0 then PNone
                                      else PFloat (np_percentile (compressed m) q))
               _ _ _ "percentile_50" (50 # 1) Hin ltac:(reflexivity) F1).
    rewrite E; reflexivity.
  - assert (Hnin : ~ In "median" (filter (String.prefix pct_prefix) req2))
      by (intro Hin; apply filter_In in Hin as [_ C]; discriminate).
    rewrite (foldM_sset_keep (fun _ q => if Nat.eqb (length (compressed m)) 0 then PNone
                                        else PFloat (np_percentile (compressed m) q))
               _ _ _ "median" Hnin F2).
    apply M2, mem_In; exact Hm.
  - apply np_percentile_50_median; exact Hne.
Qed.

Lemma percentile_50_is_median_witness :
  compressed (mkMasked [[4; 1; 3; 2]] [[false; false; false; false]]) <> [] /\
  reduce ["percentile_50"] false false [] (mkMasked [[4; 1; 3; 2]] [[false; false; false; false]])
    = Ok [(KStr "percentile_50", PFloat (250 # 100))] /\
  reduce ["median"] false false [] (mkMasked [[4; 1; 3; 2]] [[false; false; false; false]])
    = Ok [(KStr "median", PFloat (5 # 2))] /\
  exists p md, sget [(KStr "percentile_50", PFloat (250 # 100))] "percentile_50" = Some (PFloat p) /\
               sget [(KStr "median", PFloat (5 # 2))] "median" = Some (PFloat md) /\ p == md.
Proof.
  split; [discriminate|]; split; [vm_compute; reflexivity|]; split; [vm_compute; reflexivity|].
  apply (percentile_50_is_median ["percentile_50"] ["median"] false false false false [] []
           (mkMasked [[4; 1; 3; 2]] [[false; false; false; false]])
           [(KStr "percentile_50", PFloat (250 # 100))] [(KStr "median", PFloat (5 # 2))]);
    [discriminate | left; reflexivity | left; reflexivity
    | vm_compute; reflexivity | vm_compute; reflexivity].
Defined.

(** ** The loop over the features *)

Lemma process_feature_finish rg raster ri opts req rc i feat gs d gs' :
  process_feature rg raster ri opts req rc i feat gs = Ok (d, gs') ->
  exists fs, d = finish_feature opts i feat fs.
Proof.
  unfold process_feature; intro H.
  apply bind_Ok in H as [[[geom off] gt] [_ H]]; cbn beta iota in H.
  apply bind_Ok in H as [[fs gs1] [_ H]]; cbn beta iota in H.
  injection H as <- _; exists fs; reflexivity.
Qed.

Lemma zs_loop_results rg raster ri opts req rc feats :
  forall i gs results gs',
  zs_loop rg raster ri opts req rc i feats gs = Ok (results, gs') ->
  length results = length feats /\
  forall j feat d, nth_error feats j = Some feat -> nth_error results j = Some d ->
    exists fs, d = finish_feature opts (i + j) feat fs.
Proof.
  induction feats as [|feat0 feats IH]; intros i gs results gs' H; simpl in H.
  - injection H as <- _; split; [reflexivity|].
    intros [|j] feat d E; discriminate.
  - apply bind_Ok in H as [[d0 gs1] [Hp H]]; cbn beta iota in H.
    apply bind_Ok in H as [[res gs2] [Hl H]]; cbn beta iota in H.
    injection H as <- _.
    destruct (IH _ _ _ _ Hl) as [Hlen Hnth].
    split; [simpl; rewrite Hlen; reflexivity|].
    intros [|j] feat d Ef Ed; simpl in Ef, Ed.
    + injection Ef as <-; injection Ed as <-.
      rewrite Nat.add_0_r; exact (process_feature_finish _ _ _ _ _ _ _ _ _ _ _ Hp).
    + rewrite Nat.add_succ_r, <- Nat.add_succ_l; exact (Hnth j feat d Ef Ed).
Qed.

Lemma zonal_stats_results rg raster ri opts feats results g :
  zonal_stats rg raster ri opts feats = Ok (results, g) ->
  length results = length feats /\
  forall j feat d, nth_error feats j = Some feat -> nth_error results j = Some d ->
    exists fs, d = finish_feature opts j feat fs.
Proof.
  unfold zonal_stats; intro H.
  apply bind_Ok in H as [[req rc] [_ H]]; cbn beta iota in H.
  apply bind_Ok in H as [[res gs] [Hl H]]; cbn beta iota in H.
  injection H as <- _.
  exact (zs_loop_results _ _ _ _ _ _ _ _ _ _ _ Hl).
Qed.

Lemma finish_fid_default opts i feat fs :
  (copy_properties opts = true ->
   forall props, properties feat = Some props -> ~ In "__fid__" (map fst props)) ->
  sget (finish_feature opts i feat fs) "__fid__" = Some (expected_fid i feat).
Proof.
  intro Hp; unfold finish_feature, expected_fid.
  assert (Hf : sget (match fid feat with
                     | Some v => sset fs "__fid__" v
                     | None => sset fs "__fid__" (PInt (Z.of_nat i))
                     end) "__fid__" =
               Some (match fid feat with Some v => v | None => PInt (Z.of_nat i) end))
    by (destruct (fid feat); apply sget_sset_same).
  destruct (properties feat) as [props|] eqn:Ep; [|exact Hf].
  destruct (copy_properties opts) eqn:Ec; [|exact Hf].
  rewrite <- Hf; apply (sget_set_all_notin props).
  exact (Hp eq_refl props eq_refl).
Qed.

Lemma finish_fid_property opts i feat fs props v :
  copy_properties opts = true -> properties feat = Some props ->
  NoDup (map fst props) -> In ("__fid__", v) props ->
  sget (finish_feature opts i feat fs) "__fid__" = Some v.
Proof.
  intros Hc Hp Hnd Hin; unfold finish_feature; rewrite Hp, Hc.
  apply (sget_set_all_in props); assumption.
Qed.

(** ** A window off the raster *)

(** C1 (the code): a feature whose window is empty gets [None] for every
    requested stat, [count] included; whatever the rasterizer. *)
Theorem empty_window_count_none rg raster ri opts req rc i feat gs geom off gt :
  feature_window ri feat = Ok (geom, off, gt) ->
  (off_xsize off <= 0 \/ off_ysize off <= 0)%Z ->
  In "count" req -> copy_properties opts = false ->
  exists fs, process_feature rg raster ri opts req rc i feat gs = Ok (fs, gs) /\
             sget fs "count" = Some PNone.
Proof.
  intros Hw Hoff Hc Hcp; unfold process_feature; rewrite Hw; cbn [bind].
  assert (E : ((off_xsize off <=? 0) || (off_ysize off <=? 0))%Z = true)
    by (apply orb_true_iff; destruct Hoff as [H|H]; [left | right]; apply Z.leb_le; exact H).
  rewrite E; simpl.
  eexists; split; [reflexivity|].
  unfold finish_feature; rewrite Hcp.
  assert (Hn : sget (none_stats req) "count" = Some PNone)
    by (unfold none_stats; rewrite sget_fold_none; apply mem_In in Hc; rewrite Hc; reflexivity).
  destruct (fid feat); destruct (properties feat);
    (rewrite sget_sset_other by discriminate; exact Hn).
Qed.

Lemma empty_window_count_none_witness :
  feature_window (info_1x3 Gdal false) feat_outside =
    Ok (Polygon (box_ring (mkBBox 5 5 6 6)), mkOffsets 3 0 0 0, mkGT 3 1 0 1 0 (-1)) /\
  exists fs, process_feature rasterize_spec raster_1x3 (info_1x3 Gdal false)
               (opts_with ["count"] false false) ["count"] false 0 feat_outside None
             = Ok (fs, None) /\ sget fs "count" = Some PNone.
Proof.
  split; [vm_compute; reflexivity|].
  apply (empty_window_count_none rasterize_spec raster_1x3 (info_1x3 Gdal false)
           (opts_with ["count"] false false) ["count"] false 0 feat_outside None
           (Polygon (box_ring (mkBBox 5 5 6 6))) (mkOffsets 3 0 0 0) (mkGT 3 1 0 1 0 (-1)));
    [vm_compute; reflexivity | left; simpl; lia | left; reflexivity | reflexivity].
Defined.

(** ** Points and multipoints *)

(** C2 (counterexample): with square pixels of height 2 and width 1, a
    point becomes a square of side 1, not 2. *)
Lemma point_square_uses_width :
  exists b, normalize_geom (mkGT 0 1 0 0 0 (-2)) (Point 0 0) = Ok (Polygon (box_ring b)) /\
            maxx b - minx b == 1 /\ maxy b - miny b == 1 /\
            ~ (maxx b - minx b == Qabs (gt5 (mkGT 0 1 0 0 0 (-2)))).
Proof.
  exists (mkBBox (-1 # 2) (-1 # 2) (1 # 2) (1 # 2)); split; [vm_compute; reflexivity|].
  split; [reflexivity | split; [reflexivity|]]; vm_compute; discriminate.
Qed.

(** C2 (amended): for a positive pixel width, a point becomes the square of
    side pixelWidth centered on it, a multipoint the multipolygon of these
    squares, and any other geometry is left as it is. *)
Theorem normalize_geom_squares (rgt : geotransform) :
  0 < gt1 rgt ->
  (forall x y, normalize_geom rgt (Point x y) =
               Ok (Polygon (box_ring (square_centered (x, y) (gt1 rgt))))) /\
  (forall pts, normalize_geom rgt (MultiPoint pts) =
               Ok (MultiPolygon (map (fun p => box_ring (square_centered p (gt1 rgt))) pts))) /\
  (forall g, (forall x y, g <> Point x y) -> (forall pts, g <> MultiPoint pts) ->
             normalize_geom rgt g = Ok g).
Proof.
  intro Hw.
  assert (Hb : forall p, point_buffer_bounds p (gt1 rgt / 2) = Ok (square_centered p (gt1 rgt))).
  { intros [x y]; unfold point_buffer_bounds, square_centered.
    assert (Hpos : Qle_bool (gt1 rgt / 2) 0 = false).
    { apply not_true_iff_false; rewrite Qle_bool_iff; intro Hle.
      apply (Qlt_not_le 0 (gt1 rgt / 2)); [|exact Hle].
      apply Qlt_shift_div_l; [reflexivity|]; rewrite Qmult_0_l; exact Hw. }
    rewrite Hpos; reflexivity. }
  split; [|split].
  - intros x y; unfold normalize_geom; rewrite Hb; reflexivity.
  - intro pts; unfold normalize_geom.
    assert (Hm : mapM (fun pt => bind (point_buffer_bounds pt (gt1 rgt / 2))
                                      (fun b => Ok (box_ring b))) pts =
                 Ok (map (fun p => box_ring (square_centered p (gt1 rgt))) pts)).
    { induction pts as [|p pts IH]; simpl; [reflexivity|].
      rewrite Hb; simpl; rewrite IH; reflexivity. }
    rewrite Hm; reflexivity.
  - intros g Hp Hmp; destruct g as [x y|pts| | |];
      [exfalso; exact (Hp x y eq_refl) | exfalso; exact (Hmp pts eq_refl)
      | reflexivity | reflexivity | reflexivity].
Qed.

Lemma normalize_geom_squares_witness :
  0 < gt1 gt_unit /\
  normalize_geom gt_unit (Point (3 # 2) (1 # 2)) =
    Ok (Polygon (box_ring (square_centered (3 # 2, 1 # 2) (gt1 gt_unit)))).
Proof.
  split; [reflexivity|].
  apply (proj1 (normalize_geom_squares gt_unit ltac:(reflexivity))).
Defined.

(** ** raster_out in global-extent mode *)

(** C3 (the code): two features in global-extent mode with [raster_out]:
    filling the masked cells of the first feature's mini raster writes the
    no-data value into the global array (for an ndarray raster, into the
    caller's array), and the second feature, on the middle cell, finds that
    value there and counts nothing. *)
Theorem raster_out_writes_global_array :
  (exists r1, zonal_stats rasterize_spec raster_1x3 (info_1x3 Ndarray true)
                (opts_with ["count"; "min"] false true)
                [feat_outer_points; feat_middle_point] = Ok (r1, Some [[1; 0; 3]])) /\
  (exists r1 d1 d2, zonal_stats rasterize_spec raster_1x3 (info_1x3 Gdal true)
                      (opts_with ["count"; "min"] false true)
                      [feat_outer_points; feat_middle_point] = Ok (r1, Some [[1; 0; 3]]) /\
                    r1 = [d1; d2] /\ sget d2 "count" = Some (PInt 0)) /\
  (exists r1 d1 d2, zonal_stats rasterize_spec raster_1x3 (info_1x3 Gdal false)
                      (opts_with ["count"; "min"] false true)
                      [feat_outer_points; feat_middle_point] = Ok (r1, None) /\
                    r1 = [d1; d2] /\ sget d2 "count" = Some (PInt 1)).
Proof.
  split; [|split].
  - eexists; vm_compute; reflexivity.
  - do 3 eexists; split; [vm_compute; reflexivity|]; split; [reflexivity|].
    vm_compute; reflexivity.
  - do 3 eexists; split; [vm_compute; reflexivity|]; split; [reflexivity|].
    vm_compute; reflexivity.
Qed.

(** ** Local and global sub-arrays *)

(** C4 (the code): after the first feature of [raster_out_writes_global_array]
    the global-mode sub-array of the middle cell holds 0, while the
    local-mode read of the same window gives 2. *)
Theorem global_subarray_differs_after_raster_out :
  exists d1 gs1 geom gt,
    process_feature rasterize_spec raster_1x3 (info_1x3 Gdal true)
      (opts_with ["count"; "min"] false true) ["count"; "min"] false 0 feat_outer_points
      (global_source raster_1x3 (info_1x3 Gdal true)) = Ok (d1, gs1) /\
    feature_window (info_1x3 Gdal true) feat_middle_point =
      Ok (geom, mkOffsets 1 0 1 1, gt) /\
    bind (feature_src_array raster_1x3 (info_1x3 Gdal true) gs1 (mkOffsets 1 0 1 1))
         (src_data gs1) = Ok [[0]] /\
    bind (feature_src_array raster_1x3 (info_1x3 Gdal false) gs1 (mkOffsets 1 0 1 1))
         (src_data gs1) = Ok [[2]].
Proof.
  do 4 eexists; split; [vm_compute; reflexivity|].
  split; [vm_compute; reflexivity|].
  split; vm_compute; reflexivity.
Qed.

(** ** range *)

(** C7 (the code): with a category labelled ["min"], [range] subtracts the
    count of that category from the maximum: 7 - 1 = 6, not 7 - 5 = 2. *)
Theorem range_reads_category_count :
  reduce ["range"] true true [(5, "min")] (mkMasked [[5; 7]] [[false; false]]) =
    Ok [(KStr "min", PInt 1); (KNum 7, PInt 1); (KStr "range", PFloat 6)] /\
  qmax_list (compressed (mkMasked [[5; 7]] [[false; false]])) -
  qmin_list (compressed (mkMasked [[5; 7]] [[false; false]])) == 2.
Proof. split; vm_compute; reflexivity. Qed.

(** ** __fid__ *)

(** C8 (counterexample): with [copy_properties], a property ['__fid__']
    replaces the position of the feature. *)
Lemma fid_replaced_by_property :
  zonal_stats rasterize_spec raster_1x3 (info_1x3 Gdal false) (opts_with ["count"] true false)
    [feat_fid_prop] = Ok ([[(KStr "count", PInt 1); (KStr "__fid__", PInt 42)]], None) /\
  expected_fid 0 feat_fid_prop = PInt 0.
Proof. split; vm_compute; reflexivity. Qed.

(** C8 (amended): one result per feature, in order; the ['__fid__'] of the
    [j]-th is the declared id of the feature, else [j], unless properties
    are copied and the feature has a property named ['__fid__']: then it is
    that property's value. *)
Theorem zonal_stats_fid rg raster ri opts feats results g :
  zonal_stats rg raster ri opts feats = Ok (results, g) ->
  length results = length feats /\
  forall j feat d, nth_error feats j = Some feat -> nth_error results j = Some d ->
    ((copy_properties opts = true ->
      forall props, properties feat = Some props -> ~ In "__fid__" (map fst props)) ->
     sget d "__fid__" = Some (expected_fid j feat)) /\
    (forall props v, copy_properties opts = true -> properties feat = Some props ->
     NoDup (map fst props) -> In ("__fid__", v) props ->
     sget d "__fid__" = Some v).
Proof.
  intro H; destruct (zonal_stats_results _ _ _ _ _ _ _ H) as [Hlen Hnth].
  split; [exact Hlen|].
  intros j feat d Ef Ed.
  destruct (Hnth j feat d Ef Ed) as [fs ->].
  split.
  - apply finish_fid_default.
  - intros props v Hc Hp Hnd Hin; exact (finish_fid_property opts j feat fs props v Hc Hp Hnd Hin).
Qed.

Lemma zonal_stats_fid_witness :
  length (fst (ok_or ([], None) (zonal_stats rasterize_spec raster_1x3 (info_1x3 Gdal false) (opts_with ["count"] true false)
                        [feat_middle_point; feat_outside; feat_fid_prop]))) =
  length [feat_middle_point; feat_outside; feat_fid_prop] /\
  forall j feat d, nth_error [feat_middle_point; feat_outside; feat_fid_prop] j = Some feat ->
    nth_error (fst (ok_or ([], None) (zonal_stats rasterize_spec raster_1x3 (info_1x3 Gdal false) (opts_with ["count"] true false)
                        [feat_middle_point; feat_outside; feat_fid_prop]))) j = Some d ->
    ((copy_properties (opts_with ["count"] true false) = true ->
      forall props, properties feat = Some props -> ~ In "__fid__" (map fst props)) ->
     sget d "__fid__" = Some (expected_fid j feat)) /\
    (forall props v, copy_properties (opts_with ["count"] true false) = true ->
     properties feat = Some props ->
     NoDup (map fst props) -> In ("__fid__", v) props ->
     sget d "__fid__" = Some v).
Proof.
  apply (zonal_stats_fid rasterize_spec raster_1x3 (info_1x3 Gdal false)
           (opts_with ["count"] true false) [feat_middle_point; feat_outside; feat_fid_prop]
           (fst (ok_or ([], None) (zonal_stats rasterize_spec raster_1x3 (info_1x3 Gdal false) (opts_with ["count"] true false)
                        [feat_middle_point; feat_outside; feat_fid_prop])))
           (snd (ok_or ([], None) (zonal_stats rasterize_spec raster_1x3 (info_1x3 Gdal false) (opts_with ["count"] true false)
                        [feat_middle_point; feat_outside; feat_fid_prop])))).
  vm_compute; reflexivity.
Defined.

(** C10: [__fid__] is set before the properties are copied, so with
    [copy_properties] a property named ['__fid__'] is what the result holds
    under that key. *)
Theorem fid_property_overrides rg raster ri opts feats results g j feat d props v :
  zonal_stats rg raster ri opts feats = Ok (results, g) ->
  copy_properties opts = true ->
  nth_error feats j = Some feat -> nth_error results j = Some d ->
  properties feat = Some props -> NoDup (map fst props) -> In ("__fid__", v) props ->
  sget d "__fid__" = Some v.
Proof.
  intros H Hc Ef Ed Hp Hnd Hin.
  destruct (zonal_stats_results _ _ _ _ _ _ _ H) as [_ Hnth].
  destruct (Hnth j feat d Ef Ed) as [fs ->].
  exact (finish_fid_property opts j feat fs props v Hc Hp Hnd Hin).
Qed.

Lemma fid_property_overrides_witness :
  sget [(KStr "count", PInt 1); (KStr "__fid__", PInt 42)] "__fid__" = Some (PInt 42).
Proof.
  apply (fid_property_overrides rasterize_spec raster_1x3 (info_1x3 Gdal false)
           (opts_with ["count"] true false) [feat_fid_prop]
           [[(KStr "count", PInt 1); (KStr "__fid__", PInt 42)]] None 0 feat_fid_prop
           [(KStr "count", PInt 1); (KStr "__fid__", PInt 42)] [("__fid__", PInt 42)]);
    [vm_compute; reflexivity | reflexivity | reflexivity | reflexivity | reflexivity
    | repeat constructor; simpl; tauto | left; reflexivity].
Defined.

(** * Further properties of the code *)

Lemma key_eqb_sym (a b : key) : key_eqb a b = key_eqb b a.
Proof.
  destruct a as [s|q], b as [s'|q']; simpl; try reflexivity.
  - apply String.eqb_sym.
  - destruct (Qeq_bool q q') eqn:E, (Qeq_bool q' q) eqn:E'; try reflexivity;
      apply Qeq_bool_iff in E || apply Qeq_bool_iff in E';
      [apply Qeq_bool_neq in E' | apply Qeq_bool_neq in E]; exfalso; auto with qarith.
Qed.

Lemma key_eqb_trans (a b c : key) :
  key_eqb a b = true -> key_eqb b c = true -> key_eqb a c = true.
Proof.
  destruct a as [s|q], b as [s'|q'], c as [s''|q'']; simpl; try discriminate.
  - rewrite !String.eqb_eq; congruence.
  - rewrite !Qeq_bool_iff; intros; eapply Qeq_trans; eassumption.
Qed.

Lemma dict_get_set (d : dict) (k k' : key) (v : pyval) :
  dict_get (dict_set d k v) k' = if key_eqb k' k then Some v else dict_get d k'.
Proof.
  induction d as [|[k0 v0] d IH]; simpl; [reflexivity|].
  destruct (key_eqb k k0) eqn:E1; simpl.
  - destruct (key_eqb k' k) eqn:E2.
    + rewrite (key_eqb_trans _ _ _ E2 E1); reflexivity.
    + destruct (key_eqb k' k0) eqn:E3; [|reflexivity].
      rewrite key_eqb_sym in E1.
      rewrite (key_eqb_trans _ _ _ E3 E1) in E2; discriminate.
  - destruct (key_eqb k' k0) eqn:E3.
    + destruct (key_eqb k' k) eqn:E2; [|reflexivity].
      rewrite key_eqb_sym in E2.
      rewrite (key_eqb_trans _ _ _ E2 E3) in E1; discriminate.
    + rewrite IH; reflexivity.
Qed.

Lemma dict_get_sset_other (d : dict) (s : string) (v : pyval) (k : key) :
  k <> KStr s -> dict_get (sset d s v) k = dict_get d k.
Proof.
  intro Hne; unfold sset; rewrite dict_get_set.
  destruct (key_eqb k (KStr s)) eqn:E; [|reflexivity].
  rewrite key_eqb_sym in E; apply key_eqb_str in E; contradiction.
Qed.

(** Bounds of the numpy reductions. *)

Lemma fold_min_le (r : list Q) (x : Q) :
  fold_left Qmin r x <= x /\ forall y, In y r -> fold_left Qmin r x <= y.
Proof.
  revert x; induction r as [|a r IH]; intro x; simpl.
  - split; [apply Qle_refl | contradiction].
  - destruct (IH (Qmin x a)) as [H1 H2]; split.
    + eapply Qle_trans; [exact H1 | apply Q.le_min_l].
    + intros y [<- | Hy]; [eapply Qle_trans; [exact H1 | apply Q.le_min_r] | exact (H2 y Hy)].
Qed.

Lemma fold_max_ge (r : list Q) (x : Q) :
  x <= fold_left Qmax r x /\ forall y, In y r -> y <= fold_left Qmax r x.
Proof.
  revert x; induction r as [|a r IH]; intro x; simpl.
  - split; [apply Qle_refl | contradiction].
  - destruct (IH (Qmax x a)) as [H1 H2]; split.
    + eapply Qle_trans; [apply Q.le_max_l | exact H1].
    + intros y [<- | Hy]; [eapply Qle_trans; [apply Q.le_max_r | exact H1] | exact (H2 y Hy)].
Qed.

Lemma qmin_list_le (l : list Q) (y : Q) : In y l -> qmin_list l <= y.
Proof.
  destruct l as [|x r]; [contradiction|]; simpl; intros [<- | Hy];
    destruct (fold_min_le r x) as [H1 H2]; [exact H1 | exact (H2 y Hy)].
Qed.

Lemma qmax_list_ge (l : list Q) (y : Q) : In y l -> y <= qmax_list l.
Proof.
  destruct l as [|x r]; [contradiction|]; simpl; intros [<- | Hy];
    destruct (fold_max_ge r x) as [H1 H2]; [exact H1 | exact (H2 y Hy)].
Qed.

(** Sorted values stay among the values. *)
Lemma nth_sort_in (l : list Q) (k : nat) :
  (k < length l)%nat -> In (nth k (sort_q l) 0) l.
Proof.
  intro Hk; apply (Permutation_in _ (sort_q_perm l)), nth_In.
  rewrite (Permutation_length (sort_q_perm l)); exact Hk.
Qed.

Lemma nth_sort_bounds (l : list Q) (k : nat) :
  (k < length l)%nat ->
  qmin_list l <= nth k (sort_q l) 0 /\ nth k (sort_q l) 0 <= qmax_list l.
Proof.
  intro Hk; pose proof (nth_sort_in l k Hk) as Hin.
  split; [apply qmin_list_le | apply qmax_list_ge]; exact Hin.
Qed.

Lemma np_median_bounds (l : list Q) :
  l <> [] -> qmin_list l <= np_median l /\ np_median l <= qmax_list l.
Proof.
  intro Hne; unfold np_median; rewrite (Permutation_length (sort_q_perm l)).
  assert (Hn : (0 < length l)%nat) by (destruct l; [contradiction | simpl; lia]).
  destruct (Nat.even (length l)) eqn:Ev.
  - apply Nat.even_spec in Ev as [h Hh].
    destruct (nth_sort_bounds l (length l / 2 - 1)) as [A1 A2];
      [rewrite Hh, Nat.mul_comm, Nat.div_mul by lia; lia|].
    destruct (nth_sort_bounds l (length l / 2)) as [B1 B2];
      [rewrite Hh, Nat.mul_comm, Nat.div_mul by lia; lia|].
    set (a := nth (length l / 2 - 1) (sort_q l) 0) in *.
    set (b := nth (length l / 2) (sort_q l) 0) in *.
    replace ((a + b) / 2) with ((a + b) * (1 # 2)) by reflexivity; split; lra.
  - apply nth_sort_bounds; apply Nat.div_lt; lia.
Qed.

Lemma foldM_sset_keep_key (g : string -> Q -> pyval) (l : list string) (fs0 fs : dict) (k : key) :
  (forall s, In s l -> k <> KStr s) ->
  foldM (fun fs pctile => bind (get_percentile pctile) (fun q => Ok (sset fs pctile (g pctile q))))
        fs0 l = Ok fs ->
  dict_get fs k = dict_get fs0 k.
Proof.
  revert fs0; induction l as [|x l IH]; intros fs0 Hn H; simpl in H.
  - injection H as <-; reflexivity.
  - apply bind_Ok in H as [fs1 [H1 H]].
    apply bind_Ok in H1 as [q [_ H1]]; injection H1 as <-.
    rewrite (IH _ (fun s Hs => Hn s (or_intror Hs)) H).
    apply dict_get_sset_other, Hn; left; reflexivity.
Qed.

Ltac keep_key Hs Hk :=
  match type of Hs with
  | (if ?b then _ else _) = _ =>
      destruct b;
      [ apply bind_Ok in Hs as [? [_ Hs]]; injection Hs as <-;
        rewrite dict_get_sset_other
          by (let E := fresh "E" in let Hn := fresh "Hn" in
              intro E; destruct (Hk _ E) as [Hn _]; apply Hn; simpl; tauto)
      | injection Hs as <- ]
  end.

Lemma reduce_nonempty_tail (req : list string) (rc cat : bool) (cm : list (Q * string))
    (m : masked_array) (fs : dict) :
  compressed m <> [] ->
  reduce req rc cat cm m = Ok fs ->
  exists fs0,
    (cat = false -> fs0 = []) /\
    (cat = true -> cm = [] -> fs0 = counts_dict (np_unique_counts (compressed m))) /\
    forall k, (forall s, k = KStr s ->
                 ~ In s ["majority"; "minority"; "unique"; "range"] /\
                 String.prefix pct_prefix s = false) ->
      dict_get fs k = dict_get (base_stats req (compressed m) fs0) k.
Proof.
  intros Hne H; unfold reduce in H; cbv zeta in H.
  destruct (Nat.eqb (length (compressed m)) 0) eqn:E.
  { apply Nat.eqb_eq, length_zero_iff_nil in E; contradiction. }
  next_step H. next_step H. next_step H. next_step H. next_step H.
  exists fs0; split; [|split].
  - intro Hc; subst cat; injection Hs as <-; reflexivity.
  - intros Hc Hcm; subst cat cm.
    destruct rc; simpl in Hs; [injection Hs as <-; reflexivity | discriminate].
  - intros k Hk.
    assert (Hp : forall s, In s (filter (String.prefix pct_prefix) req) -> k <> KStr s).
    { intros s Hin E'; apply filter_In in Hin as [_ Hin].
      destruct (Hk s E') as [_ Hf]; congruence. }
    rewrite (foldM_sset_keep_key _ _ _ _ k Hp H).
    keep_key Hs3 Hk; keep_key Hs2 Hk; keep_key Hs1 Hk; keep_key Hs0 Hk; reflexivity.
Qed.

Lemma stage_keep (b : bool) (name : string) {A : Type} (m : result A) (f : A -> pyval)
    (fsB fs1 : dict) :
  (if b then bind m (fun a => Ok (sset fsB name (f a))) else Ok fsB) = Ok fs1 ->
  forall k, k <> KStr name -> dict_get fs1 k = dict_get fsB k.
Proof.
  intros H k Hk; destruct b.
  - apply bind_Ok in H as [a [_ H]]; injection H as <-; apply dict_get_sset_other; exact Hk.
  - injection H as <-; reflexivity.
Qed.

Lemma base_stats_min req v fs0 :
  mem "min" req = true -> sget (base_stats req v fs0) "min" = Some (PFloat (qmin_list v)).
Proof. intro H; unfold base_stats; repeat (rewrite sget_set_if_other by discriminate); apply sget_set_if_same; exact H. Qed.
Lemma base_stats_max req v fs0 :
  mem "max" req = true -> sget (base_stats req v fs0) "max" = Some (PFloat (qmax_list v)).
Proof. intro H; unfold base_stats; repeat (rewrite sget_set_if_other by discriminate); apply sget_set_if_same; exact H. Qed.
Lemma base_stats_median req v fs0 :
  mem "median" req = true -> sget (base_stats req v fs0) "median" = Some (PFloat (np_median v)).
Proof. intro H; unfold base_stats; apply sget_set_if_same; exact H. Qed.

Lemma base_stats_num req v fs0 q :
  dict_get (base_stats req v fs0) (KNum q) = dict_get fs0 (KNum q).
Proof.
  unfold base_stats, set_if.
  repeat match goal with
         | |- context [if mem ?s req then _ else _] => destruct (mem s req)
         end;
    repeat (rewrite dict_get_sset_other by discriminate); reflexivity.
Qed.

(** The keys the tail of [reduce] leaves alone. *)
Ltac tail_key :=
  let s := fresh "s" in let E := fresh "E" in
  intros s E; injection E as <-; split; [simpl; intuition discriminate | reflexivity].


Lemma group_counts_keys_in (l : list Q) (k : Q) (c : Z) :
  In (k, c) (group_counts l) -> In k l.
Proof.
  revert k c; induction l as [|x l IH]; intros k c H; simpl in H; [contradiction|].
  destruct (group_counts l) as [|[y c'] rest] eqn:G.
  - destruct H as [E | []]; injection E as <- _; left; reflexivity.
  - destruct (Qeq_bool x y).
    + destruct H as [E | H]; [injection E as <- _; right; apply (IH _ c'); left; reflexivity|].
      right; apply (IH k c); right; exact H.
    + destruct H as [E | H]; [injection E as <- _; left; reflexivity|].
      right; apply (IH k c); exact H.
Qed.

Lemma group_counts_length (l : list Q) :
  (length (group_counts l) <= length l)%nat /\ (l <> [] -> (1 <= length (group_counts l))%nat).
Proof.
  induction l as [|x l [IH1 IH2]]; simpl; [split; [lia | contradiction]|].
  destruct (group_counts l) as [|[y c] rest]; [simpl; split; lia|].
  destruct (Qeq_bool x y); simpl in *; split; lia.
Qed.

Lemma fold_counts_none (pc : list (Q * Z)) (d0 : dict) (v : Q) :
  (forall k c, In (k, c) pc -> ~ k == v) ->
  dict_get (fold_left (fun d '(k, c) => dict_set d (KNum k) (PInt c)) pc d0) (KNum v) =
  dict_get d0 (KNum v).
Proof.
  revert d0; induction pc as [|[k0 c0] pc IH]; intros d0 H; simpl; [reflexivity|].
  rewrite IH by (intros k c Hk; apply (H k c); right; exact Hk).
  rewrite dict_get_set; simpl.
  destruct (Qeq_bool v k0) eqn:E; [|reflexivity].
  exfalso; apply (H k0 c0 (or_introl eq_refl)); apply Qeq_bool_iff in E; symmetry; exact E.
Qed.

Lemma fold_counts_some (pc : list (Q * Z)) (d0 : dict) (v : Q) :
  (exists k c, In (k, c) pc /\ k == v) ->
  exists k c, In (k, c) pc /\ k == v /\
    dict_get (fold_left (fun d '(k, c) => dict_set d (KNum k) (PInt c)) pc d0) (KNum v) =
    Some (PInt c).
Proof.
  revert d0; induction pc as [|[k0 c0] pc IH]; intros d0 [k [c [Hin Hk]]]; [contradiction|].
  simpl.
  destruct (existsb (fun '(k', _) => Qeq_bool k' v) pc) eqn:Ex.
  - apply existsb_exists in Ex as [[k' c'] [Hin' Hk']]; apply Qeq_bool_iff in Hk'.
    destruct (IH (dict_set d0 (KNum k0) (PInt c0))) as [k1 [c1 [H1 [H2 H3]]]];
      [exists k', c'; split; assumption|].
    exists k1, c1; split; [right; exact H1 | split; assumption].
  - assert (Hno : forall k' c', In (k', c') pc -> ~ k' == v).
    { intros k' c' Hin' Hk'; apply Qeq_bool_iff in Hk'.
      assert (existsb (fun '(k', _) => Qeq_bool k' v) pc = true)
        by (apply existsb_exists; exists (k', c'); split; assumption).
      congruence. }
    destruct Hin as [E | Hin]; [|exfalso; exact (Hno k c Hin Hk)].
    injection E as -> ->.
    exists k, c; split; [left; reflexivity | split; [exact Hk|]].
    rewrite fold_counts_none by exact Hno.
    rewrite dict_get_set; simpl.
    assert (E : Qeq_bool v k = true) by (apply Qeq_bool_iff; symmetry; exact Hk).
    rewrite E; reflexivity.
Qed.

Lemma not_pct_filter (req : list string) (s : string) :
  String.prefix pct_prefix s = false -> ~ In s (filter (String.prefix pct_prefix) req).
Proof. intros Hp Hin; apply filter_In in Hin as [_ Hin]; congruence. Qed.

(** X4: the requested median lies between the smallest and the largest surviving value. *)
Theorem reduce_median_between_min_max (req : list string) (rc cat : bool)
    (cm : list (Q * string)) (m : masked_array) (fs : dict) :
  compressed m <> [] -> reduce req rc cat cm m = Ok fs -> In "median" req ->
  exists md, sget fs "median" = Some (PFloat md) /\
             qmin_list (compressed m) <= md /\ md <= qmax_list (compressed m).
Proof.
  intros Hne H Hs; apply mem_In in Hs.
  destruct (reduce_nonempty_tail _ _ _ _ _ _ Hne H) as [fs0 [_ [_ Ht]]].
  exists (np_median (compressed m)).
  split; [exact (eq_trans (Ht (KStr "median") ltac:(tail_key)) (base_stats_median _ _ _ Hs))|].
  apply np_median_bounds; exact Hne.
Qed.

(** X6: without categorical mode, the requested range is the largest minus the smallest surviving value, and it is never negative. *)
Theorem reduce_range_not_categorical (req : list string) (rc : bool)
    (cm : list (Q * string)) (m : masked_array) (fs : dict) :
  compressed m <> [] -> reduce req rc false cm m = Ok fs -> In "range" req ->
  sget fs "range" = Some (PFloat (qmax_list (compressed m) - qmin_list (compressed m))) /\
  0 <= qmax_list (compressed m) - qmin_list (compressed m).
Proof.
  intros Hne H Hr; apply mem_In in Hr.
  split; [|destruct (compressed m) as [|x r] eqn:Ec; [contradiction|];
           pose proof (qmin_list_le (x :: r) x (or_introl eq_refl));
           pose proof (qmax_list_ge (x :: r) x (or_introl eq_refl)); lra].
  unfold reduce in H; cbv zeta in H.
  destruct (Nat.eqb (length (compressed m)) 0) eqn:E.
  { apply Nat.eqb_eq, length_zero_iff_nil in E; contradiction. }
  next_step H. next_step H. next_step H. next_step H. next_step H.
  injection Hs as <-.
  pose proof (stage_keep _ _ _ _ _ _ Hs0) as K0.
  pose proof (stage_keep _ _ _ _ _ _ Hs1) as K1.
  pose proof (stage_keep _ _ _ _ _ _ Hs2) as K2.
  rewrite (foldM_sset_keep _ _ _ _ "range" (not_pct_filter req "range" eq_refl) H).
  rewrite Hr in Hs3; apply bind_Ok in Hs3 as [r [Hsub Hs3]]; injection Hs3 as <-.
  rewrite sget_sset_same.
  assert (Emin : sget fs3 "min" = sget (base_stats req (compressed m) []) "min").
  { unfold sget; rewrite K2, K1, K0 by discriminate; reflexivity. }
  assert (Emax : sget fs3 "max" = sget (base_stats req (compressed m) []) "max").
  { unfold sget; rewrite K2, K1, K0 by discriminate; reflexivity. }
  rewrite Emin, Emax in Hsub.
  assert (Vmin : match sget (base_stats req (compressed m) []) "min" with
                 | Some v => v | None => PFloat (qmin_list (compressed m)) end
                 = PFloat (qmin_list (compressed m))).
  { destruct (mem "min" req) eqn:Mm; [rewrite base_stats_min by exact Mm; reflexivity|].
    unfold base_stats, set_if; rewrite Mm.
    repeat match goal with |- context [if mem ?s req then _ else _] => destruct (mem s req) end;
      repeat (rewrite sget_sset_other by discriminate); reflexivity. }
  assert (Vmax : match sget (base_stats req (compressed m) []) "max" with
                 | Some v => v | None => PFloat (qmax_list (compressed m)) end
                 = PFloat (qmax_list (compressed m))).
  { destruct (mem "max" req) eqn:Mm; [rewrite base_stats_max by exact Mm; reflexivity|].
    unfold base_stats, set_if; rewrite Mm.
    repeat match goal with |- context [if mem ?s req then _ else _] => destruct (mem s req) end;
      repeat (rewrite sget_sset_other by discriminate); reflexivity. }
  rewrite Vmin, Vmax in Hsub; simpl in Hsub; injection Hsub as <-; reflexivity.
Qed.

(** X7: the requested unique is the number of distinct surviving values: at least 1 and at most the number of surviving values. *)
Theorem reduce_unique_bounds (req : list string) (rc cat : bool)
    (cm : list (Q * string)) (m : masked_array) (fs : dict) :
  compressed m <> [] -> reduce req rc cat cm m = Ok fs -> In "unique" req ->
  exists u, sget fs "unique" = Some (PInt (Z.of_nat u)) /\
            u = length (np_unique_counts (compressed m)) /\
            (1 <= u)%nat /\ (u <= length (compressed m))%nat.
Proof.
  intros Hne H Hu; apply mem_In in Hu.
  unfold reduce in H; cbv zeta in H.
  destruct (Nat.eqb (length (compressed m)) 0) eqn:E.
  { apply Nat.eqb_eq, length_zero_iff_nil in E; contradiction. }
  next_step H. next_step H. next_step H. next_step H. next_step H.
  pose proof (stage_keep _ _ _ _ _ _ Hs3) as K3.
  rewrite (foldM_sset_keep _ _ _ _ "unique" (not_pct_filter req "unique" eq_refl) H).
  unfold sget; rewrite K3 by discriminate.
  rewrite Hu in Hs2; destruct rc; simpl in Hs2; [|discriminate].
  injection Hs2 as <-; fold (sget (sset fs2 "unique" (PInt (Z.of_nat (length (np_unique_counts (compressed m)))))) "unique").
  rewrite sget_sset_same; eexists; split; [reflexivity | split; [reflexivity|]].
  unfold np_unique_counts.
  destruct (group_counts_length (sort_q (compressed m))) as [L1 L2].
  rewrite sort_q_length in L1; split; [|exact L1].
  apply L2; intro Es; apply Hne, length_zero_iff_nil.
  rewrite <- sort_q_length, Es; reflexivity.
Qed.

(** X8: in categorical mode without a category map, each surviving value is a key holding its number of occurrences, and no other number is a key. *)
Theorem reduce_categorical_histogram (req : list string) (rc : bool)
    (m : masked_array) (fs : dict) :
  compressed m <> [] -> reduce req rc true [] m = Ok fs ->
  (forall v, In v (compressed m) ->
     dict_get fs (KNum v) = Some (PInt (Z.of_nat (count_eq v (compressed m))))) /\
  (forall v, (forall y, In y (compressed m) -> ~ y == v) -> dict_get fs (KNum v) = None).
Proof.
  intros Hne H.
  destruct (reduce_nonempty_tail _ _ _ _ _ _ Hne H) as [fs0 [_ [Hc Ht]]].
  specialize (Hc eq_refl eq_refl); subst fs0.
  assert (Hk : forall v, dict_get fs (KNum v) =
                         dict_get (counts_dict (np_unique_counts (compressed m))) (KNum v)).
  { intro v; rewrite Ht by (intros s E; discriminate); apply base_stats_num. }
  destruct (group_counts_sorted _ (sort_q_sorted (compressed m))) as [G1 [_ G3]].
  split.
  - intros v Hv; rewrite Hk; unfold counts_dict, np_unique_counts.
    destruct (G3 v (Permutation_in _ (Permutation_sym (sort_q_perm _)) Hv)) as [k [c [Hin Hkv]]].
    destruct (fold_counts_some (group_counts (sort_q (compressed m))) [] v
                ltac:(exists k, c; split; assumption))
      as [k1 [c1 [H1 [H2 H3]]]].
    rewrite H3, (G1 k1 c1 H1), (count_eq_perm k1 _ _ (sort_q_perm _)).
    rewrite (count_eq_compat _ _ _ H2); reflexivity.
  - intros v Hv; rewrite Hk; unfold counts_dict, np_unique_counts.
    rewrite fold_counts_none; [reflexivity|].
    intros k c Hin Hkv; apply group_counts_keys_in in Hin.
    apply (Hv k); [|exact Hkv].
    exact (Permutation_in _ (sort_q_perm _) Hin).
Qed.





Lemma window_stats_store_kept rg raster ri opts req rc geom off gt gs fs gs' :
  raster_out opts = false ->
  window_stats rg raster ri opts req rc geom off gt gs = Ok (fs, gs') -> gs' = gs.
Proof.
  intros Hro H; unfold window_stats in H.
  apply bind_Ok in H as [sref [_ H]].
  apply bind_Ok in H as [src [_ H]].
  destruct (negb _); [discriminate|].
  apply bind_Ok in H as [fs1 [_ H]].
  apply bind_Ok in H as [fs3 [_ H]].
  rewrite Hro in H; injection H as _ <-; reflexivity.
Qed.

Lemma zs_loop_store_kept rg raster ri opts req rc feats :
  raster_out opts = false ->
  forall i gs results gs',
  zs_loop rg raster ri opts req rc i feats gs = Ok (results, gs') -> gs' = gs.
Proof.
  intro Hro; induction feats as [|feat feats IH]; intros i gs results gs' H; simpl in H.
  - injection H as _ <-; reflexivity.
  - apply bind_Ok in H as [[d gs1] [Hp H]]; cbn beta iota in H.
    apply bind_Ok in H as [[res gs2] [Hl H]]; cbn beta iota in H.
    injection H as _ <-.
    rewrite (IH _ _ _ _ Hl).
    unfold process_feature in Hp.
    apply bind_Ok in Hp as [[[geom off] gt] [_ Hp]]; cbn beta iota in Hp.
    apply bind_Ok in Hp as [[fs gs3] [Hw Hp]]; cbn beta iota in Hp.
    injection Hp as _ <-.
    destruct (_ || _)%bool; [injection Hw as _ <-; reflexivity|].
    exact (window_stats_store_kept _ _ _ _ _ _ _ _ _ _ _ _ Hro Hw).
Qed.

(** X11: without raster_out, zonal_stats leaves the global-extent array as it was read
    (the add_stats functions are pure functions of the masked array here). *)
Theorem zonal_stats_keeps_global_array rg raster ri opts feats results g :
  raster_out opts = false ->
  zonal_stats rg raster ri opts feats = Ok (results, g) ->
  g = option_map global_src_array (global_source raster ri).
Proof.
  intros Hro H; unfold zonal_stats in H.
  apply bind_Ok in H as [[req rc] [_ H]]; cbn beta iota in H.
  apply bind_Ok in H as [[res gs] [Hl H]]; cbn beta iota in H.
  injection H as _ <-.
  rewrite (zs_loop_store_kept _ _ _ _ _ _ _ Hro _ _ _ _ Hl); reflexivity.
Qed.

Lemma foldM_app {A B} (f : A -> B -> result A) (a : A) (l1 l2 : list B) :
  foldM f a (l1 ++ l2) = bind (foldM f a l1) (fun a' => foldM f a' l2).
Proof.
  revert a; induction l1 as [|x l1 IH]; intro a; simpl; [reflexivity|].
  destruct (f a x); simpl; [apply IH | reflexivity].
Qed.

Lemma add_fold_keep (m : masked_array) (l : list (string * (masked_array -> result pyval)))
    (fs0 fs : dict) (name : string) :
  ~ In name (map fst l) ->
  foldM (fun fs '(stat_name, stat_func) =>
           bind (stat_func m) (fun v => Ok (sset fs stat_name v))) fs0 l = Ok fs ->
  sget fs name = sget fs0 name.
Proof.
  revert fs0; induction l as [|[n g] l IH]; intros fs0 Hn H; simpl in H.
  - injection H as <-; reflexivity.
  - apply bind_Ok in H as [fs1 [Ha H]].
    apply bind_Ok in Ha as [w [_ Ha]]; injection Ha as <-.
    simpl in Hn; rewrite (IH _ (fun h => Hn (or_intror h)) H).
    apply sget_sset_other; intro E; apply Hn; left; symmetry; exact E.
Qed.

Lemma add_fold_last (m : masked_array) (l1 l2 : list (string * (masked_array -> result pyval)))
    (name : string) (f : masked_array -> result pyval) (fs0 fs : dict) :
  ~ In name (map fst l2) ->
  foldM (fun fs '(stat_name, stat_func) =>
           bind (stat_func m) (fun v => Ok (sset fs stat_name v))) fs0 (l1 ++ (name, f) :: l2) = Ok fs ->
  exists v, f m = Ok v /\ sget fs name = Some v.
Proof.
  intros Hn H; rewrite foldM_app in H.
  apply bind_Ok in H as [fs1 [_ H]]; simpl in H.
  apply bind_Ok in H as [fs2 [Ha H]].
  apply bind_Ok in Ha as [v [Hv Ha]]; injection Ha as <-.
  exists v; split; [exact Hv|].
  rewrite (add_fold_keep _ _ _ _ _ Hn H); apply sget_sset_same.
Qed.

(** X12: without raster_out, the value of an add_stats function on the feature's masked
    array is what the feature's stats hold under its name, over any built-in stat of the
    same name; add_stats is a dict, so its name does not come again later in the items. *)
Theorem window_stats_add_stats rg raster ri opts req rc geom off gt gs fs gs'
    l1 name f l2 :
  window_stats rg raster ri opts req rc geom off gt gs = Ok (fs, gs') ->
  add_stats opts = Some (l1 ++ (name, f) :: l2)%list ->
  ~ In name (map fst l2) ->
  raster_out opts = false ->
  exists sref src v,
    feature_src_array raster ri gs off = Ok sref /\ src_data gs sref = Ok src /\
    f (build_masked src (rg geom off gt (all_touched opts)) (nodata_value ri)) = Ok v /\
    sget fs name = Some v.
Proof.
  intros H Ha Hn Hro; unfold window_stats in H.
  apply bind_Ok in H as [sref [Hsref H]].
  apply bind_Ok in H as [src [Hsrc H]].
  destruct (negb _); [discriminate|].
  apply bind_Ok in H as [fs1 [_ H]].
  apply bind_Ok in H as [fs3 [Hf H]].
  rewrite Hro in H; injection H as <- _.
  rewrite Ha in Hf.
  destruct (add_fold_last _ _ _ _ _ _ _ Hn Hf) as [v [Hv Hg]].
  exists sref, src, v; repeat split; assumption.
Qed.

Lemma fold_props_keep (props : list (string * pyval)) (d : dict) (k : string) :
  ~ In k (map fst props) ->
  sget (fold_left (fun d '(k, v) => sset d k v) props d) k = sget d k.
Proof.
  revert d; induction props as [|[k' v'] props IH]; intros d Hn; simpl; [reflexivity|].
  simpl in Hn; rewrite (IH _ (fun h => Hn (or_intror h))).
  apply sget_sset_other; intro E; apply Hn; left; symmetry; exact E.
Qed.

(** X13: with copy_properties, each property of a feature, at its last occurrence, is in that feature's result under its own name, over any stat of the same name. *)
Theorem zonal_stats_property_copied rg raster ri opts feats results g
    j feat d p1 k v p2 :
  zonal_stats rg raster ri opts feats = Ok (results, g) ->
  copy_properties opts = true ->
  nth_error feats j = Some feat -> nth_error results j = Some d ->
  properties feat = Some (p1 ++ (k, v) :: p2)%list -> ~ In k (map fst p2) ->
  sget d k = Some v.
Proof.
  intros H Hc Hf Hd Hp Hn.
  destruct (zonal_stats_results _ _ _ _ _ _ _ H) as [_ Hr].
  destruct (Hr _ _ _ Hf Hd) as [fs ->].
  unfold finish_feature; rewrite Hp, Hc, fold_left_app; simpl.
  rewrite (fold_props_keep _ _ _ Hn); apply sget_sset_same.
Qed.

(** X4 at a concrete input. *)
Lemma reduce_median_between_min_max_witness :
  exists md, sget (ok_or [] (reduce req_all true false [] masked_1x6)) "median" = Some (PFloat md) /\
    qmin_list (compressed masked_1x6) <= md /\ md <= qmax_list (compressed masked_1x6).
Proof.
  apply (reduce_median_between_min_max req_all true false [] masked_1x6);
    [vm_compute; discriminate | vm_compute; reflexivity | simpl; tauto].
Defined.

(** X6 at a concrete input. *)
Lemma reduce_range_not_categorical_witness :
  sget (ok_or [] (reduce req_all true false [] masked_1x6)) "range" =
    Some (PFloat (qmax_list (compressed masked_1x6) - qmin_list (compressed masked_1x6))) /\
  0 <= qmax_list (compressed masked_1x6) - qmin_list (compressed masked_1x6).
Proof.
  apply (reduce_range_not_categorical req_all true [] masked_1x6);
    [vm_compute; discriminate | vm_compute; reflexivity | simpl; tauto].
Defined.

(** X7 at a concrete input. *)
Lemma reduce_unique_bounds_witness :
  exists u, sget (ok_or [] (reduce req_all true false [] masked_1x6)) "unique" = Some (PInt (Z.of_nat u)) /\
    u = length (np_unique_counts (compressed masked_1x6)) /\
    (1 <= u)%nat /\ (u <= length (compressed masked_1x6))%nat.
Proof.
  apply (reduce_unique_bounds req_all true false [] masked_1x6);
    [vm_compute; discriminate | vm_compute; reflexivity | simpl; tauto].
Defined.

(** X8 at a concrete input. *)
Lemma reduce_categorical_histogram_witness :
  (forall v, In v (compressed masked_1x6) ->
     dict_get (ok_or [] (reduce req_all true true [] masked_1x6)) (KNum v) =
       Some (PInt (Z.of_nat (count_eq v (compressed masked_1x6))))) /\
  (forall v, (forall y, In y (compressed masked_1x6) -> ~ y == v) ->
     dict_get (ok_or [] (reduce req_all true true [] masked_1x6)) (KNum v) = None).
Proof.
  apply (reduce_categorical_histogram req_all true masked_1x6);
    [vm_compute; discriminate | vm_compute; reflexivity].
Defined.



(** X11 at a concrete input. *)
Lemma zonal_stats_keeps_global_array_witness :
  snd (ok_or ([], None) (zonal_stats rasterize_spec raster_1x3 (info_1x3 Gdal true)
                           (opts_with ["count"] false false) [feat_outer_points; feat_middle_point])) =
  option_map global_src_array (global_source raster_1x3 (info_1x3 Gdal true)).
Proof.
  apply (zonal_stats_keeps_global_array rasterize_spec raster_1x3 (info_1x3 Gdal true)
           (opts_with ["count"] false false) [feat_outer_points; feat_middle_point]
           (fst (ok_or ([], None) (zonal_stats rasterize_spec raster_1x3 (info_1x3 Gdal true)
                           (opts_with ["count"] false false) [feat_outer_points; feat_middle_point]))));
    [reflexivity | vm_compute; reflexivity].
Defined.

(** X12 at a concrete input. *)
Lemma window_stats_add_stats_witness :
  exists sref src v,
    feature_src_array raster_1x3 (info_1x3 Gdal false) None (snd (fst win_outer)) = Ok sref /\
    src_data None sref = Ok src /\
    count_twice (build_masked src
                   (rasterize_spec (fst (fst win_outer)) (snd (fst win_outer)) (snd win_outer)
                      (all_touched opts_count_twice))
                   (nodata_value (info_1x3 Gdal false))) = Ok v /\
    sget (fst (ok_or ([], None) ws_outer_add)) "count" = Some v.
Proof.
  apply (window_stats_add_stats rasterize_spec raster_1x3 (info_1x3 Gdal false) opts_count_twice
           ["count"] false (fst (fst win_outer)) (snd (fst win_outer)) (snd win_outer) None
           (fst (ok_or ([], None) ws_outer_add)) (snd (ok_or ([], None) ws_outer_add))
           [] "count" count_twice []);
    [vm_compute; reflexivity | reflexivity | simpl; tauto | reflexivity].
Defined.

(** X13 at a concrete input. *)
Lemma zonal_stats_property_copied_witness :
  sget (nth 0 (fst (ok_or ([], None) (zonal_stats rasterize_spec raster_1x3 (info_1x3 Gdal false)
                                          (opts_with ["count"] true false) [feat_count_prop]))) [])
       "count" = Some (PInt 7).
Proof.
  apply (zonal_stats_property_copied rasterize_spec raster_1x3 (info_1x3 Gdal false)
           (opts_with ["count"] true false) [feat_count_prop]
           (fst (ok_or ([], None) (zonal_stats rasterize_spec raster_1x3 (info_1x3 Gdal false)
                                     (opts_with ["count"] true false) [feat_count_prop])))
           (snd (ok_or ([], None) (zonal_stats rasterize_spec raster_1x3 (info_1x3 Gdal false)
                                     (opts_with ["count"] true false) [feat_count_prop])))
           0 feat_count_prop _ [] "count" (PInt 7) []);
    [vm_compute; reflexivity | reflexivity | reflexivity | vm_compute; reflexivity
    | reflexivity | simpl; tauto].
Defined.
